(** * Request authentication state: constructors and transport codec

    A shallow embedding of [packages/backend/src/tokens/authStatus.ts]:
    the four state constructors [signedIn], [signedOut], [interstitial]
    and [unknownState], and the codec [injectRequestState] /
    [retrieveRequestState].

    JavaScript values are kept as a small value type, objects used as
    property bags as finite maps, exceptions and promise rejections as an
    outcome type, and the two things the code does to the outside world
    (calls to the identity fetchers, construction of auth objects) as an
    explicit world threaded through a state-and-exception monad. *)

From stdpp Require Import gmap strings list fin_maps pretty.

Open Scope string_scope.
Open Scope list_scope.

(** ** JavaScript values *)

#[warnings="-register-all"]
Inductive Value :=
| VUndefined
| VNull
| VBool (b : bool)
| VNum (n : Z)
| VStr (s : string)
| VObj (fields : gmap string Value).

(** [Boolean(v)]: the values that make [v ? a : b], [v && e] and [v || e]
    take their first branch.  Numbers are kept as integers, so the only
    falsy number is zero. *)
Definition truthy (v : Value) : bool :=
  match v with
  | VUndefined | VNull => false
  | VBool b => b
  | VNum n => negb (n =? 0)%Z
  | VStr s => negb (String.eqb s "")
  | VObj _ => true
  end.

Definition isNullish (v : Value) : bool :=
  match v with
  | VUndefined | VNull => true
  | _ => false
  end.

(** [a || b] *)
Definition js_or (a b : Value) : Value := if truthy a then a else b.

(** Property read [v.k] for the names this file destructures (none of them
    is an index or [length], so a primitive has none of them). *)
Definition getProp (v : Value) (k : string) : Value :=
  match v with
  | VObj m => default VUndefined (m !! k)
  | _ => VUndefined
  end.

(** One-character strings of [s], indexed from [i]: the own enumerable
    properties of a string value. *)
Fixpoint stringEntries (i : nat) (s : string) : list (string * Value) :=
  match s with
  | EmptyString => []
  | String c s' => (pretty i, VStr (String c EmptyString)) :: stringEntries (S i) s'
  end.

(** Object spread [{ ...v }]: the own enumerable properties of [v]. *)
Definition spread (v : Value) : gmap string Value :=
  match v with
  | VObj m => m
  | VStr s => list_to_map (stringEntries 0 s)
  | _ => ∅
  end.

(** ** Outcomes and effects *)

Inductive Exn :=
| TypeError
| Raised (reason : Value).

(** What running a piece of code gives: a value, an exception (a rejection,
    for asynchronous code), or a wait that never ends. *)
Inductive Outcome (A : Type) :=
| Returned (a : A)
| Thrown (e : Exn)
| Pending.
Arguments Returned {A} a.
Arguments Thrown {A} e.
Arguments Pending {A}.

(** State-and-exception monad over a state [S]. *)
Definition Eff (S A : Type) : Type := S → Outcome A * S.

Definition ret {S A} (a : A) : Eff S A := fun s => (Returned a, s).

Definition throw {S A} (e : Exn) : Eff S A := fun s => (Thrown e, s).

Definition bind {S A B} (m : Eff S A) (k : A → Eff S B) : Eff S B :=
  fun s =>
    match m s with
    | (Returned a, s') => k a s'
    | (Thrown e, s') => (Thrown e, s')
    | (Pending, s') => (Pending, s')
    end.

Declare Scope eff_scope.
Delimit Scope eff_scope with eff.
Notation "'let*' x ':=' m 'in' k" := (bind m (fun x => k))
  (at level 10, x name, m at level 100, k at level 200) : eff_scope.
Notation "'let*' '_' ':=' m 'in' k" := (bind m (fun _ => k))
  (at level 10, m at level 100, k at level 200) : eff_scope.
Open Scope eff_scope.

(** [const { ... } = v]: throws on [undefined] and [null], otherwise gives
    the property reader of [v]. *)
Definition destructure {S} (v : Value) : Eff S (string → Value) :=
  if isNullish v then throw TypeError else ret (getProp v).

(** [await p] for a promise whose fate is known. *)
Definition await {S A} (o : Outcome A) : Eff S A := fun s => (o, s).

(** ** Status and reason codes *)

Module AuthStatus.
Inductive t := SignedIn | SignedOut | Interstitial | Unknown.

Definition str (s : t) : string :=
  match s with
  | SignedIn => "signed-in"
  | SignedOut => "signed-out"
  | Interstitial => "interstitial"
  | Unknown => "unknown"
  end.
End AuthStatus.

Module AuthErrorReason.
Inductive t :=
| CookieAndUATMissing
| CookieMissing
| CookieOutDated
| CookieUATMissing
| CrossOriginReferrer
| HeaderMissingCORS
| HeaderMissingNonBrowser
| SatelliteCookieNeedsSyncing
| StandardSignedIn
| StandardSignedOut
| UnexpectedError
| Unknown.

Definition str (r : t) : string :=
  match r with
  | CookieAndUATMissing => "cookie-and-uat-missing"
  | CookieMissing => "cookie-missing"
  | CookieOutDated => "cookie-outdated"
  | CookieUATMissing => "uat-missing"
  | CrossOriginReferrer => "cross-origin-referrer"
  | HeaderMissingCORS => "header-missing-cors"
  | HeaderMissingNonBrowser => "header-missing-non-browser"
  | SatelliteCookieNeedsSyncing => "satellite-needs-syncing"
  | StandardSignedIn => "standard-signed-in"
  | StandardSignedOut => "standard-signed-out"
  | UnexpectedError => "unexpected-error"
  | Unknown => "unknown"
  end.
End AuthErrorReason.

(** [AuthReason = AuthErrorReason | TokenVerificationErrorReason].  The
    second enum is declared in [./errors], which is not part of these
    sources; its members are kept as the strings they are at run time. *)
Inductive AuthReason :=
| ErrorReason (r : AuthErrorReason.t)
| TokenVerificationErrorReason (code : string).

Definition reasonValue (r : AuthReason) : Value :=
  match r with
  | ErrorReason r => VStr (AuthErrorReason.str r)
  | TokenVerificationErrorReason code => VStr code
  end.

(** ** Auth objects, the world, request states *)

(** Second argument of [signedInAuthObject]. *)
Record SignedInAuthObjectOptions := {
  secretKey : Value;
  apiKey : Value;
  apiUrl : Value;
  apiVersion : Value;
  token : Value;
  session : Value;
  user : Value;
  organization : Value;
}.

(** Modelled from the spec: [./authObjects] (the builders
    [signedInAuthObject] and [signedOutAuthObject]) is not part of these
    sources.  The spec has a SignedInAuthObject "built from the claims, the
    chosen token, and whichever records were fetched" and a
    SignedOutAuthObject "carrying the reason/message/status"; an auth object
    is therefore kept as the arguments its builder received. *)
Inductive AuthObject :=
| SignedInAuthObject (sessionClaims : Value)
    (options : SignedInAuthObjectOptions) (debugData : gmap string Value)
| SignedOutAuthObject (debugData : gmap string Value).

(** Requests sent to the identity fetchers. *)
Inductive FetchCall :=
| GetSession (sessionId : Value)
| GetUser (userId : Value)
| GetOrganization (params : Value).

(** A reference to an auth object: its position in the heap. *)
Definition Ref := nat.

(** What this code can do to the outside: issue fetches (logged in the order
    they are issued) and create auth objects (appended to the heap, so each
    creation has an identity of its own). *)
Record World := {
  fetchLog : list FetchCall;
  heap : list AuthObject;
}.

Definition logFetch (c : FetchCall) : Eff World unit :=
  fun w => (Returned tt, {| fetchLog := fetchLog w ++ [c]; heap := heap w |}).

Definition alloc (o : AuthObject) : Eff World Ref :=
  fun w => (Returned (length (heap w)),
            {| fetchLog := fetchLog w; heap := heap w ++ [o] |}).

(** Modelled from the spec: the builder of [./authObjects]; every call
    builds an object. *)
Definition signedInAuthObject (sessionClaims : Value)
    (options : SignedInAuthObjectOptions) (debugData : gmap string Value)
  : Eff World Ref :=
  alloc (SignedInAuthObject sessionClaims options debugData).

(** Modelled from the spec: the builder of [./authObjects]; every call
    builds an object. *)
Definition signedOutAuthObject (debugData : gmap string Value) : Eff World Ref :=
  alloc (SignedOutAuthObject debugData).

(** The object literal every constructor returns.  [proxyUrl] is [None]
    when the literal has no such property; [toAuth ()] gives a reference to
    an auth object, or [None] for [null]. *)
Record RequestState := {
  status : AuthStatus.t;
  reason : Value;
  message : Value;
  frontendApi : Value;
  proxyUrl : option Value;
  publishableKey : Value;
  isSatellite : Value;
  domain : Value;
  isSignedIn : bool;
  isInterstitial : bool;
  isUnknown : bool;
  toAuth : Eff World (option Ref);
}.

(** Reading [state.proxyUrl]. *)
Definition readProxyUrl (s : RequestState) : Value :=
  default VUndefined (proxyUrl s).

(** ** Promises of the identity fetchers *)

(** The fate of a promise: fulfilled, rejected at some instant, or never
    settled. *)
Inductive Promise :=
| Fulfilled (v : Value)
| Rejected (at_ : nat) (reason : Value)
| Unsettled.

Definition Promise_resolve (v : Value) : Promise := Fulfilled v.

(** The rejection that comes first in time (the earlier element on a tie). *)
Fixpoint firstRejection (ps : list Promise) : option (nat * Value) :=
  match ps with
  | [] => None
  | p :: ps' =>
      match p, firstRejection ps' with
      | Rejected t e, Some (t', e') =>
          if (t <=? t')%nat then Some (t, e) else Some (t', e')
      | Rejected t e, None => Some (t, e)
      | _, r => r
      end
  end.

Fixpoint fulfilledValues (ps : list Promise) : option (list Value) :=
  match ps with
  | [] => Some []
  | Fulfilled v :: ps' => cons v <$> fulfilledValues ps'
  | _ :: _ => None
  end.

(** [Promise.all(ps)]: rejects with the first rejection, is fulfilled with
    all values when every element is, and otherwise never settles. *)
Definition Promise_all (ps : list Promise) : Outcome (list Value) :=
  match firstRejection ps with
  | Some (_, e) => Thrown (Raised e)
  | None =>
      match fulfilledValues ps with
      | Some vs => Returned vs
      | None => Pending
      end
  end.

(** The client returned by [createBackendApiClient]. *)
Record SessionApi := { getSession : Value → Promise }.
Record UserApi := { getUser : Value → Promise }.
Record OrganizationApi := { getOrganization : Value → Promise }.
Record BackendApiClient := {
  sessions : SessionApi;
  users : UserApi;
  organizations : OrganizationApi;
}.

(** The promise a logged request was answered with. *)
Definition answer (c : BackendApiClient) (f : FetchCall) : Promise :=
  match f with
  | GetSession id => getSession (sessions c) id
  | GetUser id => getUser (users c) id
  | GetOrganization params => getOrganization (organizations c) params
  end.

(** Calling a fetcher: the request goes out, a promise comes back. *)
Definition fetch (c : BackendApiClient) (f : FetchCall) : Eff World Promise :=
  let* _ := logFetch f in ret (answer c f).

(** [a && b] *)
Definition js_and (a b : Value) : Value := if truthy a then b else a.

(** ** The state constructors *)

Section Constructors.

(** [createBackendApiClient] of [../api], the identity-fetch
    collaborator. *)
Variable createBackendApiClient : Value → BackendApiClient.

Definition signedIn (options sessionClaims : Value) : Eff World RequestState :=
  let* o := destructure options in
  let apiKey := o "apiKey" in
  let secretKey := o "secretKey" in
  let apiUrl := o "apiUrl" in
  let apiVersion := o "apiVersion" in
  let cookieToken := o "cookieToken" in
  let frontendApi := o "frontendApi" in
  let proxyUrl := o "proxyUrl" in
  let publishableKey := o "publishableKey" in
  let domain := o "domain" in
  let isSatellite := o "isSatellite" in
  let headerToken := o "headerToken" in
  let loadSession := o "loadSession" in
  let loadUser := o "loadUser" in
  let loadOrganization := o "loadOrganization" in
  let* c := destructure sessionClaims in
  let sessionId := c "sid" in
  let orgId := c "org_id" in
  let userId := c "sub" in
  let client :=
    createBackendApiClient
      (VObj (<["apiVersion" := apiVersion]> (<["apiUrl" := apiUrl]>
            (<["secretKey" := secretKey]> {["apiKey" := apiKey]})))) in
  let* sessionP :=
    if truthy loadSession
    then fetch client (GetSession sessionId)
    else ret (Promise_resolve VUndefined) in
  let* userP :=
    if truthy loadUser
    then fetch client (GetUser userId)
    else ret (Promise_resolve VUndefined) in
  let* organizationP :=
    if truthy (js_and loadOrganization orgId)
    then fetch client (GetOrganization (VObj {["organizationId" := orgId]}))
    else ret (Promise_resolve VUndefined) in
  let* resps := await (Promise_all [sessionP; userP; organizationP]) in
  let sessionResp := default VUndefined (resps !! 0%nat) in
  let userResp := default VUndefined (resps !! 1%nat) in
  let organizationResp := default VUndefined (resps !! 2%nat) in
  let* authObject :=
    signedInAuthObject sessionClaims
      {| secretKey := secretKey;
         apiKey := apiKey;
         apiUrl := apiUrl;
         apiVersion := apiVersion;
         token := js_or (js_or cookieToken headerToken) (VStr "");
         session := sessionResp;
         user := userResp;
         organization := organizationResp |}
      (<["status" := VStr (AuthStatus.str AuthStatus.SignedIn)]> (spread options)) in
  ret {| status := AuthStatus.SignedIn;
         reason := VNull;
         message := VNull;
         frontendApi := frontendApi;
         proxyUrl := Some proxyUrl;
         publishableKey := publishableKey;
         domain := domain;
         isSatellite := isSatellite;
         isSignedIn := true;
         isInterstitial := false;
         isUnknown := false;
         toAuth := ret (Some authObject) |}.

(** [message] is [None] when the argument is left out; the default
    [message = ''] then applies. *)
Definition signedOut (options : Value) (reason : AuthReason)
    (message : option string) : Eff World RequestState :=
  let message := VStr (default "" message) in
  let reason := reasonValue reason in
  let* o := destructure options in
  ret {| status := AuthStatus.SignedOut;
         reason := reason;
         message := message;
         frontendApi := o "frontendApi";
         proxyUrl := Some (o "proxyUrl");
         publishableKey := o "publishableKey";
         isSatellite := o "isSatellite";
         domain := o "domain";
         isSignedIn := false;
         isInterstitial := false;
         isUnknown := false;
         toAuth :=
           let* a :=
             signedOutAuthObject
               (<["message" := message]> (<["reason" := reason]>
                (<["status" := VStr (AuthStatus.str AuthStatus.SignedOut)]>
                   (spread options)))) in
           ret (Some a) |}.

Definition interstitial (options : Value) (reason : AuthReason)
    (message : option string) : Eff World RequestState :=
  let message := VStr (default "" message) in
  let reason := reasonValue reason in
  let* o := destructure options in
  ret {| status := AuthStatus.Interstitial;
         reason := reason;
         message := message;
         frontendApi := o "frontendApi";
         publishableKey := o "publishableKey";
         isSatellite := o "isSatellite";
         domain := o "domain";
         proxyUrl := Some (o "proxyUrl");
         isSignedIn := false;
         isInterstitial := true;
         isUnknown := false;
         toAuth := ret None |}.

Definition unknownState (options : Value) (reason : AuthReason)
    (message : option string) : Eff World RequestState :=
  let message := VStr (default "" message) in
  let reason := reasonValue reason in
  let* o := destructure options in
  ret {| status := AuthStatus.Unknown;
         reason := reason;
         message := message;
         frontendApi := o "frontendApi";
         publishableKey := o "publishableKey";
         isSatellite := o "isSatellite";
         domain := o "domain";
         proxyUrl := None;
         isSignedIn := false;
         isInterstitial := false;
         isUnknown := true;
         toAuth := ret None |}.

End Constructors.

(** ** The transport codec *)

Module Headers.
(** [constants.Headers] of [../constants]: the three transport keys. *)
Record t := {
  AuthStatus : string;
  AuthMessage : string;
  AuthReason : string;
}.
End Headers.

Module Retrieved.
(** The record [{ status, message, reason }] of [retrieveRequestState]. *)
Record t := {
  status : Value;
  message : Value;
  reason : Value;
}.
End Retrieved.

Section Codec.

Variable constants_Headers : Headers.t.

(** The state of whatever the caller's callbacks act on. *)
Context {S : Type}.

Definition InjectHandler := string → Value → Eff S unit.

Definition injectRequestState (requestState : RequestState)
    (inject : InjectHandler) : Eff S unit :=
  let status := VStr (AuthStatus.str (status requestState)) in
  let message := message requestState in
  let reason := reason requestState in
  let* _ := if truthy status
            then inject (Headers.AuthStatus constants_Headers) status
            else ret tt in
  let* _ := if truthy message
            then inject (Headers.AuthMessage constants_Headers) message
            else ret tt in
  if truthy reason
  then inject (Headers.AuthReason constants_Headers) reason
  else ret tt.

Definition RetrieveHandler (TRequest : Type) := TRequest → string → Eff S Value.

Definition retrieveRequestState {TRequest} (req : TRequest)
    (retrieve : RetrieveHandler TRequest) : Eff S Retrieved.t :=
  let* status := retrieve req (Headers.AuthStatus constants_Headers) in
  let* message := retrieve req (Headers.AuthMessage constants_Headers) in
  let* reason := retrieve req (Headers.AuthReason constants_Headers) in
  ret {| Retrieved.status := status;
         Retrieved.message := message;
         Retrieved.reason := reason |}.

End Codec.

(** ** Vocabulary of the specification *)

(** The table of the data model: the booleans
    [(isSignedIn, isInterstitial, isUnknown)] each status goes with. *)
Definition statusFlags (st : AuthStatus.t) : bool * bool * bool :=
  match st with
  | AuthStatus.SignedIn => (true, false, false)
  | AuthStatus.SignedOut => (false, false, false)
  | AuthStatus.Interstitial => (false, true, false)
  | AuthStatus.Unknown => (false, false, true)
  end.

(** A state has the shape of its status: the three booleans are those of
    the table, and [reason] and [message] are [null] for SignedIn and
    neither [null] nor [undefined] for every other status. *)
Definition wellShaped (s : RequestState) : Prop :=
  (isSignedIn s, isInterstitial s, isUnknown s) = statusFlags (status s)
  ∧ (status s = AuthStatus.SignedIn → reason s = VNull ∧ message s = VNull)
  ∧ (status s ≠ AuthStatus.SignedIn →
       isNullish (reason s) = false ∧ isNullish (message s) = false).

(** One call of one of the four constructors. *)
Inductive Invocation :=
| CallSignedIn (options sessionClaims : Value)
| CallSignedOut (options : Value) (reason : AuthReason) (message : option string)
| CallInterstitial (options : Value) (reason : AuthReason) (message : option string)
| CallUnknownState (options : Value) (reason : AuthReason) (message : option string).

Definition invoke (create : Value → BackendApiClient) (i : Invocation)
  : Eff World RequestState :=
  match i with
  | CallSignedIn options sessionClaims => signedIn create options sessionClaims
  | CallSignedOut options reason message => signedOut options reason message
  | CallInterstitial options reason message => interstitial options reason message
  | CallUnknownState options reason message => unknownState options reason message
  end.

Definition statusOf (i : Invocation) : AuthStatus.t :=
  match i with
  | CallSignedIn _ _ => AuthStatus.SignedIn
  | CallSignedOut _ _ _ => AuthStatus.SignedOut
  | CallInterstitial _ _ _ => AuthStatus.Interstitial
  | CallUnknownState _ _ _ => AuthStatus.Unknown
  end.

Definition optionsOf (i : Invocation) : Value :=
  match i with
  | CallSignedIn options _ => options
  | CallSignedOut options _ _ => options
  | CallInterstitial options _ _ => options
  | CallUnknownState options _ _ => options
  end.

(** Example inputs: an options object with all five tenant fields and both
    tokens, and the claims of a session without organization. *)
Definition exampleBag : gmap string Value :=
  <["frontendApi" := VStr "clerk.example.com"]>
  (<["proxyUrl" := VStr "https://proxy.example.com"]>
  (<["publishableKey" := VStr "pk_test"]>
  (<["isSatellite" := VBool false]>
  (<["domain" := VStr "example.com"]>
  (<["cookieToken" := VStr "c"]>
  (<["headerToken" := VStr "h"]>
  (<["loadSession" := VBool true]>
  (<["loadUser" := VBool true]>
     {["loadOrganization" := VBool true]})))))))).

Definition exampleOptions : Value := VObj exampleBag.

Definition exampleClaimsBag : gmap string Value :=
  <["sid" := VStr "sess_1"]> {["sub" := VStr "user_1"]}.

Definition exampleClaims : Value := VObj exampleClaimsBag.

(** The client [signedIn] obtains for an options reader [o]. *)
Definition clientFor (create : Value → BackendApiClient) (o : string → Value)
  : BackendApiClient :=
  create (VObj (<["apiVersion" := o "apiVersion"]> (<["apiUrl" := o "apiUrl"]>
               (<["secretKey" := o "secretKey"]> {["apiKey" := o "apiKey"]})))).

(** The three gates, in the specification's words: the load flag, and for
    the organization also an organization id in the claims. *)
Definition sessionGate (o : string → Value) : bool := truthy (o "loadSession").
Definition userGate (o : string → Value) : bool := truthy (o "loadUser").
Definition organizationGate (o cl : string → Value) : bool :=
  truthy (o "loadOrganization") && truthy (cl "org_id").

Definition sessionFetch (cl : string → Value) : FetchCall := GetSession (cl "sid").
Definition userFetch (cl : string → Value) : FetchCall := GetUser (cl "sub").
Definition organizationFetch (cl : string → Value) : FetchCall :=
  GetOrganization (VObj {["organizationId" := cl "org_id"]}).

(** The fetches the specification allows: one per open gate. *)
Definition gatedFetches (o cl : string → Value) : list FetchCall :=
  ((if sessionGate o then [sessionFetch cl] else [])
   ++ (if userGate o then [userFetch cl] else [])
   ++ (if organizationGate o cl then [organizationFetch cl] else []))%list.

(** The promise in a slot of the joint wait: the fetcher's answer when the
    gate is open, an already fulfilled [undefined] when it is shut. *)
Definition slot (client : BackendApiClient) (gate : bool) (f : FetchCall) : Promise :=
  if gate then answer client f else Promise_resolve VUndefined.

Definition slots (client : BackendApiClient) (o cl : string → Value) : list Promise :=
  [slot client (sessionGate o) (sessionFetch cl);
   slot client (userGate o) (userFetch cl);
   slot client (organizationGate o cl) (organizationFetch cl)].

(** The specification's token rule: cookie token, else header token, else
    the empty string. *)
Definition chosenToken (cookieToken headerToken : Value) : Value :=
  if truthy cookieToken then cookieToken
  else if truthy headerToken then headerToken
  else VStr "".

(** The arguments [signedOut]'s [toAuth] hands to the builder. *)
Definition signedOutDebugData (options : Value) (reason : AuthReason)
    (message : string) : gmap string Value :=
  <["message" := VStr message]> (<["reason" := reasonValue reason]>
    (<["status" := VStr (AuthStatus.str AuthStatus.SignedOut)]> (spread options))).

(** Two successive [toAuth()] calls give one and the same object, and build
    nothing. *)
Definition toAuthStable (s : RequestState) (w : World) : Prop :=
  ∀ a1 w1 a2 w2,
    toAuth s w = (Returned (Some a1), w1) →
    toAuth s w1 = (Returned (Some a2), w2) →
    a1 = a2 ∧ w2 = w.

(** A key/value carrier (headers, say) and the callbacks that write it and
    read it; [absent] is what a read of a missing key gives. *)
Definition carrierInject : @InjectHandler (gmap string Value) :=
  fun key value carrier => (Returned tt, <[key := value]> carrier).

Definition carrierRetrieve (absent : Value)
  : @RetrieveHandler unit (gmap string Value) :=
  fun req key => ret (default absent (req !! key)).

(** What crosses the codec: a truthy field as it is, any other as
    [absent]. *)
Definition transported (absent v : Value) : Value :=
  if truthy v then v else absent.

(** A retrieve callback that also records the keys it is asked for. *)
Definition recording {S TRequest} (retrieve : @RetrieveHandler S TRequest)
  : @RetrieveHandler (S * list string) TRequest :=
  fun req key '(s, asked) =>
    let '(o, s') := retrieve req key s in (o, (s', (asked ++ [key])%list)).

(** A callback without effects, given by the value it reads. *)
Definition reading {S TRequest} (f : TRequest → string → Value)
  : @RetrieveHandler S TRequest :=
  fun req key => ret (f req key).

Definition keysDistinct (h : Headers.t) : Prop :=
  Headers.AuthStatus h ≠ Headers.AuthMessage h
  ∧ Headers.AuthStatus h ≠ Headers.AuthReason h
  ∧ Headers.AuthMessage h ≠ Headers.AuthReason h.

(** What [signedIn] returns, given the options reader [o] and the auth
    object [a] it built. *)
Definition builtSignedIn (o : string → Value) (a : Ref) (s : RequestState) : Prop :=
  status s = AuthStatus.SignedIn
  ∧ reason s = VNull
  ∧ message s = VNull
  ∧ frontendApi s = o "frontendApi"
  ∧ proxyUrl s = Some (o "proxyUrl")
  ∧ publishableKey s = o "publishableKey"
  ∧ domain s = o "domain"
  ∧ isSatellite s = o "isSatellite"
  ∧ isSignedIn s = true
  ∧ isInterstitial s = false
  ∧ isUnknown s = false
  ∧ toAuth s = ret (Some a).

(** What [signedIn] hands to [signedInAuthObject], given the values [resps]
    of the joint wait. *)
Definition builtOptions (o : string → Value) (resps : list Value)
    (opts : SignedInAuthObjectOptions) : Prop :=
  secretKey opts = o "secretKey"
  ∧ apiKey opts = o "apiKey"
  ∧ apiUrl opts = o "apiUrl"
  ∧ apiVersion opts = o "apiVersion"
  ∧ token opts = js_or (js_or (o "cookieToken") (o "headerToken")) (VStr "")
  ∧ session opts = default VUndefined (resps !! 0%nat)
  ∧ user opts = default VUndefined (resps !! 1%nat)
  ∧ organization opts = default VUndefined (resps !! 2%nat).

(** The world after the fetches [fs] went out. *)
Definition afterFetches (w : World) (fs : list FetchCall) : World :=
  {| fetchLog := fetchLog w ++ fs; heap := heap w |}.

(** The world after the object [a] was built. *)
Definition afterBuild (w : World) (a : AuthObject) : World :=
  {| fetchLog := fetchLog w; heap := heap w ++ [a] |}.

(** Concrete data for examples. *)
Definition emptyWorld : World := {| fetchLog := []; heap := [] |}.

Definition headerNames : Headers.t :=
  {| Headers.AuthStatus := "x-clerk-auth-status";
     Headers.AuthMessage := "x-clerk-auth-message";
     Headers.AuthReason := "x-clerk-auth-reason" |}.

(** A collaborator that answers every request with a record. *)
Definition answeringClient (_ : Value) : BackendApiClient :=
  {| sessions := {| getSession := fun id => Fulfilled (VObj {["id" := id]}) |};
     users := {| getUser := fun id => Fulfilled (VObj {["id" := id]}) |};
     organizations := {| getOrganization := fun params => Fulfilled params |} |}.

(** A collaborator whose user lookup fails. *)
Definition failingClient (_ : Value) : BackendApiClient :=
  {| sessions := {| getSession := fun id => Fulfilled (VObj {["id" := id]}) |};
     users := {| getUser := fun _ => Rejected 1 (VStr "user lookup failed") |};
     organizations := {| getOrganization := fun params => Fulfilled params |} |}.

(** The token [signedIn] passes on, read back from the heap. *)
Definition tokenOf (r : Outcome RequestState * World) : option Value :=
  match r with
  | (Returned s, w') =>
      match toAuth s w' with
      | (Returned (Some a), _) =>
          match heap w' !! a with
          | Some (SignedInAuthObject _ opts _) => Some (token opts)
          | _ => None
          end
      | _ => None
      end
  | _ => None
  end.

(** Runs one of the three synchronous constructors to its returned state. *)
Ltac run_constructor H :=
  unfold signedOut, interstitial, unknownState, destructure, bind, ret, throw in H;
  match type of H with
  | context [isNullish ?v] => destruct (isNullish v) eqn:?; [discriminate H|]
  end;
  injection H as <- <-.

(** ** Further vocabulary *)

(** An inject callback that also records the calls it receives. *)
Definition recordingInject {S} (inject : @InjectHandler S)
  : @InjectHandler (S * list (string * Value)) :=
  fun key value '(s, calls) =>
    let '(o, s') := inject key value s in (o, (s', calls ++ [(key, value)])).

(** The key/value pairs of a state that are truthy, in the order status,
    message, reason. *)
Definition truthyPairs (h : Headers.t) (rs : RequestState) : list (string * Value) :=
  (if truthy (VStr (AuthStatus.str (status rs)))
   then [(Headers.AuthStatus h, VStr (AuthStatus.str (status rs)))] else [])
  ++ (if truthy (message rs) then [(Headers.AuthMessage h, message rs)] else [])
  ++ (if truthy (reason rs) then [(Headers.AuthReason h, reason rs)] else []).

(** Writing key/value pairs into a carrier, one after the other. *)
Definition writePairs (carrier : gmap string Value) (ps : list (string * Value))
  : gmap string Value :=
  foldl (fun c p => <[p.1 := p.2]> c) carrier ps.

(** Reading a key of a carrier, [absent] when it is missing. *)
Definition carrierRead (absent : Value) (carrier : gmap string Value)
    (key : string) : Value :=
  default absent (carrier !! key).

(** The message and the reason an invocation puts on its state. *)
Definition messageOf (i : Invocation) : Value :=
  match i with
  | CallSignedIn _ _ => VNull
  | CallSignedOut _ _ message
  | CallInterstitial _ _ message
  | CallUnknownState _ _ message => VStr (default "" message)
  end.

Definition reasonOf (i : Invocation) : Value :=
  match i with
  | CallSignedIn _ _ => VNull
  | CallSignedOut _ reason _
  | CallInterstitial _ reason _
  | CallUnknownState _ reason _ => reasonValue reason
  end.

(** A collaborator whose user lookup never answers. *)
Definition hangingClient (_ : Value) : BackendApiClient :=
  {| sessions := {| getSession := fun id => Fulfilled (VObj {["id" := id]}) |};
     users := {| getUser := fun _ => Unsettled |};
     organizations := {| getOrganization := fun params => Fulfilled params |} |}.

(** ** The build configuration ([packages/nextjs/tsup.config.ts]) *)

(** [v.k]: throws on [undefined] and [null]. *)
Definition member {S} (v : Value) (k : string) : Eff S Value :=
  if isNullish v then throw TypeError else ret (getProp v k).

(** [v?.k] *)
Definition optionalMember (v : Value) (k : string) : Value :=
  if isNullish v then VUndefined else getProp v k.

(** [v === s] for a string literal [s]. *)
Definition strictEqualsString (v : Value) (s : string) : bool :=
  match v with
  | VStr t => String.eqb t s
  | _ => false
  end.

(** A boolean inside a template literal. *)
Definition booleanToString (b : bool) : string := if b then "true" else "false".

(** The double-quote character, as a string. *)
Definition doubleQuote : string := String (Ascii.ascii_of_nat 34) EmptyString.

Module Tsup.

(** The values of a tsup options object: booleans, strings, arrays of
    strings, and the table of [define]. *)
Inductive ConfigValue :=
| CBool (b : bool)
| CStr (s : string)
| CList (l : list string)
| CTable (t : gmap string string).

Section Config.

(** [name] and [version] of [./package.json]. *)
Variables name version : string.

Context {S : Type}.

(** The function given to [defineConfig]. *)
Definition config (overrideOptions : Value)
  : Eff S (list (gmap string ConfigValue)) :=
  let* env := member overrideOptions "env" in
  let isProd := strictEqualsString (optionalMember env "NODE_ENV") "production" in
  let common : gmap string ConfigValue :=
    <["define" :=
        CTable (<["__DEV__" := booleanToString (negb isProd)]>
               (<["PACKAGE_VERSION" := doubleQuote +:+ version +:+ doubleQuote]>
                  {["PACKAGE_NAME" := doubleQuote +:+ name +:+ doubleQuote]}))]>
    (<["legacyOutput" := CBool true]>
    (<["sourcemap" := CBool true]>
    (<["minify" := CBool false]>
    (<["clean" := CBool true]>
    (<["bundle" := CBool false]>
       {["entry" := CList ["./src/**/*.{ts,tsx,js,jsx}"]]}))))) in
  let esm : gmap string ConfigValue :=
    <["onSuccess" :=
        CStr "cp ./package.esm.json ./dist/esm/package.json && npm run build:declarations"]>
    (<["format" := CStr "esm"]> common) in
  let cjs : gmap string ConfigValue :=
    <["onSuccess" :=
        CStr "cp ./package.cjs.json ./dist/cjs/package.json && npm run build:declarations"]>
    (<["outDir" := CStr "./dist/cjs"]>
    (<["format" := CStr "cjs"]> common)) in
  ret [esm; cjs].

End Config.

End Tsup.

(** ** The joint wait *)

Lemma firstRejection_elem ps t e :
  firstRejection ps = Some (t, e) → Rejected t e ∈ ps.
Proof.
  revert t e. induction ps as [|p ps IH]; intros t e; simpl; [done|].
  rewrite elem_of_cons.
  destruct p as [v|t0 e0|]; try (intros H; right; by apply IH).
  destruct (firstRejection ps) as [[t' e']|].
  - destruct (t0 <=? t')%nat; intros [= <- <-]; [by left | right; by apply IH].
  - intros [= <- <-]. by left.
Qed.

Lemma firstRejection_None ps :
  firstRejection ps = None ↔ ∀ t e, Rejected t e ∉ ps.
Proof.
  induction ps as [|p ps IH]; simpl.
  - split; [intros _ t e H; inversion H | done].
  - split.
    + intros H t e. rewrite elem_of_cons. intros [<-|Hin].
      * destruct (firstRejection ps) as [[t' e']|]; [|done].
        by destruct (t <=? t')%nat.
      * assert (Hps : firstRejection ps = None).
        { destruct p as [v|t0 e0|]; try done.
          destruct (firstRejection ps) as [[t' e']|]; [|done].
          by destruct (t0 <=? t')%nat. }
        by apply (proj1 IH Hps t e).
    + intros H.
      assert (Hps : firstRejection ps = None).
      { apply IH. intros t e Hin. apply (H t e). rewrite elem_of_cons. by right. }
      rewrite Hps. destruct p as [v|t0 e0|]; try done.
      exfalso. apply (H t0 e0). rewrite elem_of_cons. by left.
Qed.

Lemma fulfilledValues_Some ps vs :
  fulfilledValues ps = Some vs ↔ ps = Fulfilled <$> vs.
Proof.
  revert vs. induction ps as [|p ps IH]; intros vs; simpl.
  - split; [intros [= <-]; done | by destruct vs].
  - destruct p as [v|t e|]; try (split; [done | by destruct vs]).
    destruct (fulfilledValues ps) as [vs'|] eqn:Hps; simpl.
    + split.
      * intros [= <-]. simpl. f_equal. by apply IH.
      * destruct vs as [|v0 vs0]; [done|]. intros [= -> Hrest].
        apply IH in Hrest. by injection Hrest as ->.
    + split; [done|]. destruct vs as [|v0 vs0]; [done|]. intros [= -> Hrest].
      apply IH in Hrest. discriminate.
Qed.

Lemma fulfilled_not_rejected (vs : list Value) t e :
  Rejected t e ∉ Fulfilled <$> vs.
Proof. intros Hin. apply list_elem_of_fmap in Hin as (v & ? & _). discriminate. Qed.

(** The joint wait is fulfilled exactly when every promise is, with their
    values in order. *)
Lemma Promise_all_Returned ps vs :
  Promise_all ps = Returned vs ↔ ps = Fulfilled <$> vs.
Proof.
  unfold Promise_all. split.
  - destruct (firstRejection ps) as [[t e]|]; [done|].
    destruct (fulfilledValues ps) as [vs'|] eqn:Hps; [|done].
    intros [= <-]. by apply fulfilledValues_Some.
  - intros ->.
    assert (Hnone : firstRejection (Fulfilled <$> vs) = None).
    { apply firstRejection_None. intros t e. apply fulfilled_not_rejected. }
    rewrite Hnone.
    by rewrite (proj2 (fulfilledValues_Some (Fulfilled <$> vs) vs) eq_refl).
Qed.

(** A failure of the joint wait is the rejection of one of its promises. *)
Lemma Promise_all_Thrown ps x :
  Promise_all ps = Thrown x → ∃ t e, Rejected t e ∈ ps ∧ x = Raised e.
Proof.
  unfold Promise_all.
  destruct (firstRejection ps) as [[t e]|] eqn:Hps.
  - intros [= <-]. exists t, e. split; [by apply firstRejection_elem | done].
  - by destruct (fulfilledValues ps).
Qed.

(** One rejected promise makes the joint wait fail. *)
Lemma Promise_all_rejects ps t e :
  Rejected t e ∈ ps → ∃ x, Promise_all ps = Thrown x.
Proof.
  intros Hin. unfold Promise_all.
  destruct (firstRejection ps) as [[t' e']|] eqn:Hps; [by eexists|].
  exfalso. by apply (proj1 (firstRejection_None ps) Hps t e).
Qed.

(** The rejected slots are the rejected answers to the gated fetches. *)
Lemma slots_rejected client o cl t e :
  Rejected t e ∈ slots client o cl ↔
  ∃ f, f ∈ gatedFetches o cl ∧ answer client f = Rejected t e.
Proof.
  unfold slots, gatedFetches, slot, Promise_resolve.
  destruct (sessionGate o), (userGate o), (organizationGate o cl); cbn [app];
    (split;
     [ intros Hin; repeat (apply elem_of_cons in Hin as [Hin|Hin]);
       try discriminate; try (by inversion Hin);
       eexists; (split; [|symmetry; exact Hin]); set_solver
     | intros (f & Hin & Hf);
       repeat (apply elem_of_cons in Hin as [->|Hin]); try (by inversion Hin);
       rewrite Hf; set_solver ]).
Qed.

(** ** Running [signedIn] *)

Lemma truthy_js_and a b : truthy (js_and a b) = truthy a && truthy b.
Proof. unfold js_and. by destruct (truthy a) eqn:Ha; simpl. Qed.

Lemma js_or_chosenToken cookieToken headerToken :
  js_or (js_or cookieToken headerToken) (VStr "") = chosenToken cookieToken headerToken.
Proof.
  unfold js_or, chosenToken.
  destruct (truthy cookieToken) eqn:Hc; [by rewrite Hc | done].
Qed.

(** [signedIn] on options and claims that can be destructured: the gated
    fetches go out, then the joint wait decides. *)
Lemma signedIn_spec create options sessionClaims w :
  isNullish options = false →
  isNullish sessionClaims = false →
  let o := getProp options in
  let cl := getProp sessionClaims in
  let w1 := afterFetches w (gatedFetches o cl) in
  match Promise_all (slots (clientFor create o) o cl) with
  | Returned resps =>
      ∃ s opts,
        signedIn create options sessionClaims w =
          (Returned s,
           afterBuild w1
             (SignedInAuthObject sessionClaims opts
                (<["status" := VStr (AuthStatus.str AuthStatus.SignedIn)]>
                   (spread options))))
        ∧ builtSignedIn o (length (heap w)) s
        ∧ builtOptions o resps opts
  | Thrown e => signedIn create options sessionClaims w = (Thrown e, w1)
  | Pending => signedIn create options sessionClaims w = (Pending, w1)
  end.
Proof.
  intros Ho Hc o cl w1. subst w1. destruct w as [lg hp].
  unfold signedIn, destructure. rewrite Ho, Hc.
  unfold bind, ret, await, fetch, logFetch, signedInAuthObject, alloc, bind, ret.
  cbn beta iota. rewrite truthy_js_and. fold o cl.
  unfold slots, slot, gatedFetches, sessionGate, userGate,
    organizationGate, clientFor, afterFetches, afterBuild.
  set (client := create _).
  destruct (truthy (o "loadSession")), (truthy (o "loadUser")),
    (truthy (o "loadOrganization") && truthy (cl "org_id")); cbn beta iota;
    cbn [fetchLog heap]; unfold sessionFetch, userFetch, organizationFetch;
    (destruct (Promise_all _) as [resps|e|];
     [ eexists _, _; unfold builtSignedIn, builtOptions;
       split; [rewrite <- ?app_assoc, ?app_nil_r; reflexivity|];
       cbn; repeat split
     | rewrite <- ?app_assoc, ?app_nil_r; reflexivity
     | rewrite <- ?app_assoc, ?app_nil_r; reflexivity ]).
Qed.

(** Options or claims that are [undefined] or [null] cannot be
    destructured: [signedIn] fails before any fetch. *)
Lemma signedIn_nullish create options sessionClaims w :
  isNullish options = true ∨ isNullish sessionClaims = true →
  signedIn create options sessionClaims w = (Thrown TypeError, w).
Proof.
  unfold signedIn, destructure, bind, throw, ret.
  destruct (isNullish options); [done|].
  intros [? | ->]; done.
Qed.

(** A state returned by [signedIn], with the object its [toAuth] gives. *)
Lemma signedIn_returned create options sessionClaims w s w' :
  signedIn create options sessionClaims w = (Returned s, w') →
  let o := getProp options in
  let cl := getProp sessionClaims in
  ∃ resps opts,
    slots (clientFor create o) o cl = Fulfilled <$> resps
    ∧ w' = afterBuild (afterFetches w (gatedFetches o cl))
             (SignedInAuthObject sessionClaims opts
                (<["status" := VStr (AuthStatus.str AuthStatus.SignedIn)]>
                   (spread options)))
    ∧ builtSignedIn o (length (heap w)) s
    ∧ builtOptions o resps opts.
Proof.
  intros Hrun o cl.
  destruct (isNullish options) eqn:Ho.
  { rewrite signedIn_nullish in Hrun by (by left). discriminate. }
  destruct (isNullish sessionClaims) eqn:Hc.
  { rewrite signedIn_nullish in Hrun by (by right). discriminate. }
  pose proof (signedIn_spec create options sessionClaims w Ho Hc) as Hspec.
  cbn zeta in Hspec. fold o cl in Hspec.
  destruct (Promise_all (slots (clientFor create o) o cl)) as [resps|e|] eqn:Hall.
  - destruct Hspec as (s0 & opts & Heq & Hs & Hopts).
    rewrite Heq in Hrun. injection Hrun as <- <-.
    exists resps, opts. split; [by apply Promise_all_Returned | done].
  - rewrite Hspec in Hrun. discriminate.
  - rewrite Hspec in Hrun. discriminate.
Qed.

(** ** Shape of the returned states *)

Lemma reasonValue_not_nullish r : isNullish (reasonValue r) = false.
Proof. by destruct r. Qed.

(** C1: every state returned by one of the four constructors has the
    status of its constructor and the shape of that status: the booleans
    isSignedIn / isInterstitial / isUnknown are those the table gives for
    the status (and no other status has the same booleans), and reason and
    message are null for SignedIn and non-null for every other status. *)
Theorem constructors_shape create (i : Invocation) w s w' :
  invoke create i w = (Returned s, w') →
  status s = statusOf i
  ∧ wellShaped s
  ∧ (∀ st, statusFlags st = (isSignedIn s, isInterstitial s, isUnknown s) →
           st = status s).
Proof.
  destruct i as [options claims|options r msg|options r msg|options r msg];
    cbn [invoke statusOf]; intros H.
  - apply signedIn_returned in H as (resps & opts & _ & _ & Hs & _).
    destruct Hs as (Hst & Hr & Hm & _ & _ & _ & _ & _ & H1 & H2 & H3 & _).
    unfold wellShaped. rewrite Hst, Hr, Hm, H1, H2, H3.
    repeat split; try done. intros st. by destruct st.
  - run_constructor H. unfold wellShaped. cbn.
    repeat split; try done; try apply reasonValue_not_nullish.
    intros st. by destruct st.
  - run_constructor H. unfold wellShaped. cbn.
    repeat split; try done; try apply reasonValue_not_nullish.
    intros st. by destruct st.
  - run_constructor H. unfold wellShaped. cbn.
    repeat split; try done; try apply reasonValue_not_nullish.
    intros st. by destruct st.
Qed.

Lemma constructors_shape_witness :
  ∃ s w',
    invoke answeringClient (CallSignedIn exampleOptions exampleClaims) emptyWorld
      = (Returned s, w')
    ∧ status s = AuthStatus.SignedIn
    ∧ wellShaped s
    ∧ (∀ st, statusFlags st = (isSignedIn s, isInterstitial s, isUnknown s) →
             st = status s).
Proof.
  eexists _, _. split; [vm_compute; reflexivity|].
  eapply (constructors_shape answeringClient
            (CallSignedIn exampleOptions exampleClaims) emptyWorld).
  vm_compute; reflexivity.
Defined.

(** ** Tenant metadata *)

(** The tenant fields each constructor copies from the options: all five,
    except that the state of [unknownState] has no [proxyUrl]. *)
Lemma tenant_metadata_copied create (i : Invocation) w s w' :
  invoke create i w = (Returned s, w') →
  let o := getProp (optionsOf i) in
  frontendApi s = o "frontendApi"
  ∧ publishableKey s = o "publishableKey"
  ∧ isSatellite s = o "isSatellite"
  ∧ domain s = o "domain"
  ∧ proxyUrl s = match i with
                 | CallUnknownState _ _ _ => None
                 | _ => Some (o "proxyUrl")
                 end.
Proof.
  destruct i as [options claims|options r msg|options r msg|options r msg];
    cbn [invoke optionsOf]; intros H.
  - apply signedIn_returned in H as (resps & opts & _ & _ & Hs & _).
    destruct Hs as (_ & _ & _ & ? & ? & ? & ? & ? & _). done.
  - by run_constructor H.
  - by run_constructor H.
  - by run_constructor H.
Qed.

(** C2: at an options bag with a proxy URL, the state returned by
    [unknownState] carries frontendApi, publishableKey, isSatellite and
    domain, but not the proxy URL: reading [proxyUrl] on it gives
    [undefined], where [interstitial] on the same options gives the
    options' value. *)
Theorem unknownState_omits_proxyUrl :
  ∃ s s',
    unknownState exampleOptions (ErrorReason AuthErrorReason.Unknown) None emptyWorld
      = (Returned s, emptyWorld)
    ∧ interstitial exampleOptions (ErrorReason AuthErrorReason.Unknown) None emptyWorld
      = (Returned s', emptyWorld)
    ∧ getProp exampleOptions "proxyUrl" = VStr "https://proxy.example.com"
    ∧ readProxyUrl s' = VStr "https://proxy.example.com"
    ∧ readProxyUrl s = VUndefined
    ∧ frontendApi s = getProp exampleOptions "frontendApi"
    ∧ publishableKey s = getProp exampleOptions "publishableKey"
    ∧ isSatellite s = getProp exampleOptions "isSatellite"
    ∧ domain s = getProp exampleOptions "domain".
Proof. eexists _, _. split; [vm_compute; reflexivity|]. by vm_compute. Qed.

(** ** The auth object of a signed-in state *)

Lemma heap_afterBuild w a : heap (afterBuild w a) !! length (heap w) = Some a.
Proof. unfold afterBuild. cbn [heap]. by apply list_lookup_middle. Qed.

(** A state returned by [signedIn] hands out, at every [toAuth()], the
    object that was built before it was returned. *)
Lemma signedIn_authObject create options sessionClaims w s w' :
  signedIn create options sessionClaims w = (Returned s, w') →
  let o := getProp options in
  let cl := getProp sessionClaims in
  ∃ resps opts debugData,
    toAuth s = ret (Some (length (heap w)))
    ∧ heap w' = heap w ++ [SignedInAuthObject sessionClaims opts debugData]
    ∧ fetchLog w' = fetchLog w ++ gatedFetches o cl
    ∧ slots (clientFor create o) o cl = Fulfilled <$> resps
    ∧ builtOptions o resps opts.
Proof.
  intros H o cl.
  apply signedIn_returned in H as (resps & opts & Hslots & -> & Hs & Hopts).
  exists resps, opts. eexists.
  split; [|split; [reflexivity|split; [reflexivity|split; assumption]]].
  by destruct Hs as (_ & _ & _ & _ & _ & _ & _ & _ & _ & _ & _ & ?).
Qed.

(** C4: the token placed in the SignedInAuthObject is the cookie token
    when there is one, otherwise the header token when there is one,
    otherwise the empty string. *)
Theorem signedIn_token create options sessionClaims w s w' :
  signedIn create options sessionClaims w = (Returned s, w') →
  ∃ a opts debugData,
    toAuth s w' = (Returned (Some a), w')
    ∧ heap w' !! a = Some (SignedInAuthObject sessionClaims opts debugData)
    ∧ token opts = chosenToken (getProp options "cookieToken")
                               (getProp options "headerToken").
Proof.
  intros H.
  apply signedIn_authObject in H as (resps & opts & dbg & Hto & Hheap & _ & _ & Hopts).
  exists (length (heap w)), opts, dbg. rewrite Hto, Hheap. repeat split.
  - by apply list_lookup_middle.
  - destruct Hopts as (_ & _ & _ & _ & -> & _). apply js_or_chosenToken.
Qed.

Lemma signedIn_token_witness :
  ∃ s w' a opts debugData,
    signedIn answeringClient exampleOptions exampleClaims emptyWorld = (Returned s, w')
    ∧ toAuth s w' = (Returned (Some a), w')
    ∧ heap w' !! a = Some (SignedInAuthObject exampleClaims opts debugData)
    ∧ token opts = VStr "c".
Proof.
  eexists _, _.
  assert (Hrun : signedIn answeringClient exampleOptions exampleClaims emptyWorld
                 = (Returned _, _)) by (vm_compute; reflexivity).
  destruct (signedIn_token _ _ _ _ _ _ Hrun) as (a & opts & dbg & H1 & H2 & H3).
  exists a, opts, dbg. repeat split; [exact Hrun | exact H1 | exact H2 | exact H3].
Defined.

Example token_cookie_and_header :
  tokenOf (signedIn answeringClient
             (VObj (<["cookieToken" := VStr "c"]> {["headerToken" := VStr "h"]}))
             exampleClaims emptyWorld) = Some (VStr "c").
Proof. by vm_compute. Qed.

Example token_header_only :
  tokenOf (signedIn answeringClient
             (VObj (<["cookieToken" := VUndefined]> {["headerToken" := VStr "h"]}))
             exampleClaims emptyWorld) = Some (VStr "h").
Proof. by vm_compute. Qed.

Example token_neither :
  tokenOf (signedIn answeringClient (VObj ∅) exampleClaims emptyWorld)
  = Some (VStr "").
Proof. by vm_compute. Qed.

(** ** Fetch gating *)

(** A fetch is among the gated ones exactly when it is the fetch of an
    open gate. *)
Lemma gatedFetches_elem o cl f :
  f ∈ gatedFetches o cl ↔
  (f = sessionFetch cl ∧ sessionGate o = true)
  ∨ (f = userFetch cl ∧ userGate o = true)
  ∨ (f = organizationFetch cl ∧ organizationGate o cl = true).
Proof.
  unfold gatedFetches.
  destruct (sessionGate o), (userGate o), (organizationGate o cl); cbn [app];
    rewrite ?elem_of_cons, elem_of_nil; intuition congruence.
Qed.

(** C5: [signedIn] issues exactly the gated fetches, in order: the session
    fetch iff loadSession, the user fetch iff loadUser, the organization
    fetch iff loadOrganization and the claims have an org_id; with
    loadOrganization set and no org_id there is no organization fetch; and
    the slot of a shut gate reaches the auth object as undefined. *)
Theorem signedIn_fetch_gating create options sessionClaims w :
  isNullish options = false →
  isNullish sessionClaims = false →
  let o := getProp options in
  let cl := getProp sessionClaims in
  fetchLog (signedIn create options sessionClaims w).2
    = fetchLog w ++ gatedFetches o cl
  ∧ (cl "org_id" = VUndefined →
       ∀ params, GetOrganization params ∉ gatedFetches o cl)
  ∧ ∀ s w',
      signedIn create options sessionClaims w = (Returned s, w') →
      ∃ a opts debugData,
        toAuth s w' = (Returned (Some a), w')
        ∧ heap w' !! a = Some (SignedInAuthObject sessionClaims opts debugData)
        ∧ (sessionGate o = false → session opts = VUndefined)
        ∧ (userGate o = false → user opts = VUndefined)
        ∧ (organizationGate o cl = false → organization opts = VUndefined).
Proof.
  intros Ho Hc o cl. split; [|split].
  - pose proof (signedIn_spec create options sessionClaims w Ho Hc) as Hspec.
    cbn zeta in Hspec. fold o cl in Hspec.
    destruct (Promise_all _) as [resps|e|].
    + destruct Hspec as (s & opts & -> & _). done.
    + by rewrite Hspec.
    + by rewrite Hspec.
  - intros Horg params. unfold gatedFetches, organizationGate. rewrite Horg.
    rewrite andb_false_r.
    destruct (sessionGate o), (userGate o); cbn [app];
      rewrite ?elem_of_cons, elem_of_nil; unfold sessionFetch, userFetch;
      intros H; repeat destruct H as [H|H]; done.
  - intros s w' H.
    apply signedIn_authObject in H as (resps & opts & dbg & Hto & Hheap & _ & Hslots & Hopts).
    fold o cl in Hslots, Hopts.
    exists (length (heap w)), opts, dbg. rewrite Hto, Hheap.
    split; [done|]. split; [by apply list_lookup_middle|].
    destruct Hopts as (_ & _ & _ & _ & _ & -> & -> & ->).
    unfold slots, slot, Promise_resolve in Hslots.
    destruct resps as [|v1 [|v2 [|v3 [|]]]]; try discriminate Hslots.
    injection Hslots as H1 H2 H3. cbn.
    repeat split; intros Hg; [rewrite Hg in H1|rewrite Hg in H2|rewrite Hg in H3];
      congruence.
Qed.

Lemma signedIn_fetch_gating_witness :
  fetchLog (signedIn answeringClient exampleOptions exampleClaims emptyWorld).2
  = [GetSession (VStr "sess_1"); GetUser (VStr "user_1")].
Proof.
  pose proof (signedIn_fetch_gating answeringClient exampleOptions exampleClaims
                emptyWorld eq_refl eq_refl) as [H _].
  rewrite H. by vm_compute.
Defined.

(** ** The rejection constructors *)

(** C6: [signedOut] without a message gives status SignedOut, the given
    reason, message "", isSignedIn false, and a [toAuth] that returns a
    SignedOutAuthObject (not null) built with that reason and message;
    [interstitial] and [unknownState] store the given message, and their
    [toAuth] always returns null. *)
Theorem rejection_constructors (m : gmap string Value) (r : AuthReason) :
  (∀ w, ∃ s,
     signedOut (VObj m) r None w = (Returned s, w)
     ∧ status s = AuthStatus.SignedOut
     ∧ reason s = reasonValue r
     ∧ message s = VStr ""
     ∧ isSignedIn s = false
     ∧ ∀ w1, ∃ a w2 debugData,
         toAuth s w1 = (Returned (Some a), w2)
         ∧ heap w2 !! a = Some (SignedOutAuthObject debugData)
         ∧ debugData !! "reason" = Some (reasonValue r)
         ∧ debugData !! "message" = Some (VStr "")
         ∧ debugData !! "status" = Some (VStr "signed-out"))
  ∧ (∀ msg w, ∃ s,
       interstitial (VObj m) r msg w = (Returned s, w)
       ∧ status s = AuthStatus.Interstitial
       ∧ reason s = reasonValue r
       ∧ message s = VStr (default "" msg)
       ∧ ∀ w1, toAuth s w1 = (Returned None, w1))
  ∧ (∀ msg w, ∃ s,
       unknownState (VObj m) r msg w = (Returned s, w)
       ∧ status s = AuthStatus.Unknown
       ∧ reason s = reasonValue r
       ∧ message s = VStr (default "" msg)
       ∧ ∀ w1, toAuth s w1 = (Returned None, w1)).
Proof.
  split; [|split].
  - intros w. eexists. split; [reflexivity|]. cbn. repeat split.
    intros w1. eexists _, _, _. split; [reflexivity|]. split.
    + apply heap_afterBuild.
    + by simplify_map_eq.
  - intros msg w. eexists. split; [reflexivity|]. by cbn.
  - intros msg w. eexists. split; [reflexivity|]. by cbn.
Qed.

Example signedOut_cookie_missing :
  ∃ s, signedOut exampleOptions (ErrorReason AuthErrorReason.CookieMissing) None emptyWorld
       = (Returned s, emptyWorld)
       ∧ status s = AuthStatus.SignedOut
       ∧ reason s = VStr "cookie-missing"
       ∧ message s = VStr ""
       ∧ isSignedIn s = false.
Proof. eexists. split; [vm_compute; reflexivity|]. by vm_compute. Qed.

Example interstitial_stale :
  ∃ s, interstitial exampleOptions (ErrorReason AuthErrorReason.CookieOutDated)
         (Some "stale") emptyWorld = (Returned s, emptyWorld)
       ∧ message s = VStr "stale"
       ∧ toAuth s emptyWorld = (Returned None, emptyWorld).
Proof. eexists. split; [vm_compute; reflexivity|]. by vm_compute. Qed.

(** ** Failure *)

(** Options that are [undefined] or [null] cannot be destructured: each of
    the three constructors throws. *)
Lemma rejection_constructors_nullish options r msg w :
  isNullish options = true →
  signedOut options r msg w = (Thrown TypeError, w)
  ∧ interstitial options r msg w = (Thrown TypeError, w)
  ∧ unknownState options r msg w = (Thrown TypeError, w).
Proof.
  intros H. unfold signedOut, interstitial, unknownState, destructure, bind.
  by rewrite H.
Qed.


(** C7: on an options bag, [signedOut], [interstitial] and [unknownState]
    always return a state, without touching the world.  [signedIn], on an
    options bag and claims, fails only with the rejection of a fetch it
    issued; and when an issued fetch is rejected it fails with such a
    rejection: it returns no state of any kind. *)
Theorem failure_policy create (m c : gmap string Value) (r : AuthReason)
    (msg : option string) (w : World) :
  (∃ s, signedOut (VObj m) r msg w = (Returned s, w))
  ∧ (∃ s, interstitial (VObj m) r msg w = (Returned s, w))
  ∧ (∃ s, unknownState (VObj m) r msg w = (Returned s, w))
  ∧ let o := getProp (VObj m) in
    let cl := getProp (VObj c) in
    let client := clientFor create o in
    let outcome := (signedIn create (VObj m) (VObj c) w).1 in
    (∀ x, outcome = Thrown x →
       ∃ f t e, f ∈ gatedFetches o cl ∧ answer client f = Rejected t e
                ∧ x = Raised e)
    ∧ (∀ f t e, f ∈ gatedFetches o cl → answer client f = Rejected t e →
         ∃ f' t' e', f' ∈ gatedFetches o cl ∧ answer client f' = Rejected t' e'
                     ∧ outcome = Thrown (Raised e')).
Proof.
  repeat split; try by eexists.
  - intros x Hx.
    pose proof (signedIn_spec create (VObj m) (VObj c) w eq_refl eq_refl) as Hspec.
    cbn zeta in Hspec.
    destruct (Promise_all _) as [resps|e|] eqn:Hall.
    + destruct Hspec as (s & opts & Heq & _). rewrite Heq in Hx. discriminate.
    + rewrite Hspec in Hx. injection Hx as <-.
      apply Promise_all_Thrown in Hall as (t & e' & Hin & ->).
      apply slots_rejected in Hin as (f & Hf & Hans). by exists f, t, e'.
    + rewrite Hspec in Hx. discriminate.
  - intros f t e Hf Hans.
    pose proof (signedIn_spec create (VObj m) (VObj c) w eq_refl eq_refl) as Hspec.
    cbn zeta in Hspec.
    assert (Hin : Rejected t e ∈ slots (clientFor create (getProp (VObj m)))
                    (getProp (VObj m)) (getProp (VObj c))).
    { apply slots_rejected. by exists f. }
    apply Promise_all_rejects in Hin as (x & Hall).
    rewrite Hall in Hspec. rewrite Hspec. cbn [fst].
    apply Promise_all_Thrown in Hall as (t' & e' & Hin' & ->).
    apply slots_rejected in Hin' as (f' & Hf' & Hans'). by exists f', t', e'.
Qed.

Lemma failure_policy_witness :
  (signedIn failingClient exampleOptions exampleClaims emptyWorld).1
  = Thrown (Raised (VStr "user lookup failed")).
Proof.
  destruct (failure_policy failingClient exampleBag exampleClaimsBag
              (ErrorReason AuthErrorReason.Unknown) None emptyWorld)
    as (_ & _ & _ & _ & Hfail).
  destruct (Hfail (GetUser (VStr "user_1")) 1%nat (VStr "user lookup failed"))
    as (f' & t' & e' & _ & Hans & Hout).
  - vm_compute. repeat constructor.
  - reflexivity.
  - destruct f'; cbn in Hans; try discriminate Hans.
    injection Hans as _ <-. exact Hout.
Defined.

Example signedIn_failed_fetch :
  signedIn failingClient exampleOptions exampleClaims emptyWorld
  = (Thrown (Raised (VStr "user lookup failed")),
     {| fetchLog := [GetSession (VStr "sess_1"); GetUser (VStr "user_1")];
        heap := [] |}).
Proof. by vm_compute. Qed.

(** ** Identity of the auth object *)

(** What [toAuth] of a signed-out state does: it builds a new object from
    the arguments captured at construction. *)
Lemma signedOut_toAuth options r msg w s w' :
  signedOut options r msg w = (Returned s, w') →
  ∀ w1, toAuth s w1 =
        (Returned (Some (length (heap w1))),
         afterBuild w1
           (SignedOutAuthObject (signedOutDebugData options r (default "" msg)))).
Proof. intros H w1. by run_constructor H. Qed.

(** C8, as stated, fails for [signedOut]: two [toAuth()] calls on a
    signed-out state build two objects and return two different
    references. *)
Lemma signedOut_toAuth_not_stable :
  ∃ s,
    signedOut exampleOptions (ErrorReason AuthErrorReason.CookieMissing) None
      emptyWorld = (Returned s, emptyWorld)
    ∧ ¬ toAuthStable s emptyWorld.
Proof.
  eexists. split; [reflexivity|].
  intros Hstable.
  destruct (Hstable 0%nat
              (afterBuild emptyWorld
                 (SignedOutAuthObject
                    (signedOutDebugData exampleOptions
                       (ErrorReason AuthErrorReason.CookieMissing) "")))
              1%nat
              (afterBuild
                 (afterBuild emptyWorld
                    (SignedOutAuthObject
                       (signedOutDebugData exampleOptions
                          (ErrorReason AuthErrorReason.CookieMissing) "")))
                 (SignedOutAuthObject
                    (signedOutDebugData exampleOptions
                       (ErrorReason AuthErrorReason.CookieMissing) ""))))
    as [Heq _]; [reflexivity | reflexivity | discriminate Heq].
Qed.

(** C8, amended: a signed-in state's auth object is built once, before the
    state is returned, and every [toAuth()] returns that same object and
    builds nothing.  A signed-out state's [toAuth()] builds a new
    SignedOutAuthObject at every call, always from the options, reason and
    message captured at construction: two calls return two different
    objects with the same contents, and leave every older object as it
    was. *)
Theorem toAuth_identity create (options sessionClaims : Value)
    (r : AuthReason) (msg : option string) (w : World) :
  (∀ s w',
     signedIn create options sessionClaims w = (Returned s, w') →
     ∃ a obj,
       heap w' = heap w ++ [obj]
       ∧ a = length (heap w)
       ∧ (∀ w1, toAuth s w1 = (Returned (Some a), w1))
       ∧ ∀ w1, toAuthStable s w1)
  ∧ (∀ s w',
       signedOut options r msg w = (Returned s, w') →
       w' = w
       ∧ ∀ w1 a1 w2 a2 w3,
           toAuth s w1 = (Returned (Some a1), w2) →
           toAuth s w2 = (Returned (Some a2), w3) →
           let obj := SignedOutAuthObject
                        (signedOutDebugData options r (default "" msg)) in
           a1 ≠ a2
           ∧ heap w3 = heap w1 ++ [obj; obj]
           ∧ heap w3 !! a1 = Some obj
           ∧ heap w3 !! a2 = Some obj).
Proof.
  split.
  - intros s w' H.
    apply signedIn_authObject in H as (resps & opts & dbg & Hto & Hheap & _).
    eexists _, _. split; [exact Hheap|]. split; [reflexivity|].
    split; [by rewrite Hto|].
    intros w1 a1 w2 a2 w3. rewrite Hto. unfold ret.
    by intros [= <- <-] [= <- <-].
  - intros s w' H. split; [by run_constructor H|].
    intros w1 a1 w2 a2 w3.
    rewrite !(signedOut_toAuth _ _ _ _ _ _ H).
    intros [= <- <-] [= <- <-]. cbn zeta. unfold afterBuild. cbn [heap].
    rewrite length_app. cbn [length].
    repeat split.
    + lia.
    + by rewrite <- app_assoc.
    + rewrite <- app_assoc. by apply list_lookup_middle.
    + apply list_lookup_middle. by rewrite length_app.
Qed.

Lemma toAuth_identity_witness :
  ∃ s w',
    signedIn answeringClient exampleOptions exampleClaims emptyWorld = (Returned s, w')
    ∧ toAuthStable s w'.
Proof.
  eexists _, _.
  assert (Hrun : signedIn answeringClient exampleOptions exampleClaims emptyWorld
                 = (Returned _, _)) by (vm_compute; reflexivity).
  split; [exact Hrun|].
  destruct (toAuth_identity answeringClient exampleOptions exampleClaims
              (ErrorReason AuthErrorReason.Unknown) None emptyWorld) as [Hin _].
  destruct (Hin _ _ Hrun) as (a & obj & _ & _ & _ & Hstable).
  apply Hstable.
Defined.

(** ** The transport codec *)

Lemma status_truthy st : truthy (VStr (AuthStatus.str st)) = true.
Proof. by destruct st. Qed.

(** C3: injecting a state into an empty carrier and retrieving from that
    carrier gives back the status, and the message and the reason when
    they were truthy on the state; a field that was not truthy reads as
    the carrier's null/undefined.  The status key is always written; an
    empty message is not written, and reads as null/undefined, not "". *)
Theorem codec_round_trip (h : Headers.t) (rs : RequestState) (absent : Value) :
  keysDistinct h →
  isNullish absent = true →
  ∃ carrier retrieved,
    injectRequestState h rs carrierInject ∅ = (Returned tt, carrier)
    ∧ retrieveRequestState h carrier (carrierRetrieve absent) tt
      = (Returned retrieved, tt)
    ∧ carrier !! Headers.AuthStatus h = Some (VStr (AuthStatus.str (status rs)))
    ∧ Retrieved.status retrieved = VStr (AuthStatus.str (status rs))
    ∧ Retrieved.message retrieved = transported absent (message rs)
    ∧ Retrieved.reason retrieved = transported absent (reason rs)
    ∧ (message rs = VStr "" →
         carrier !! Headers.AuthMessage h = None
         ∧ isNullish (Retrieved.message retrieved) = true).
Proof.
  intros (Hsm & Hsr & Hmr) Habsent.
  unfold injectRequestState, retrieveRequestState, carrierInject,
    carrierRetrieve, transported, bind, ret.
  rewrite status_truthy.
  destruct (truthy (message rs)) eqn:Hm, (truthy (reason rs)) eqn:Hr;
    eexists _, _; (split; [reflexivity|]); (split; [reflexivity|]);
    cbn [Retrieved.status Retrieved.message Retrieved.reason];
    simplify_map_eq; repeat split; try done;
    match goal with
    | Hempty : message rs = VStr "" |- _ => rewrite Hempty in Hm; discriminate Hm
    end.
Qed.

Lemma codec_round_trip_witness :
  ∃ s carrier retrieved,
    signedOut exampleOptions (ErrorReason AuthErrorReason.CookieMissing) None
      emptyWorld = (Returned s, emptyWorld)
    ∧ injectRequestState headerNames s carrierInject ∅ = (Returned tt, carrier)
    ∧ retrieveRequestState headerNames carrier (carrierRetrieve VUndefined) tt
      = (Returned retrieved, tt)
    ∧ Retrieved.status retrieved = VStr "signed-out"
    ∧ Retrieved.message retrieved = VUndefined
    ∧ Retrieved.reason retrieved = VStr "cookie-missing".
Proof.
  assert (Hrun : signedOut exampleOptions (ErrorReason AuthErrorReason.CookieMissing)
                   None emptyWorld = (Returned _, emptyWorld)) by reflexivity.
  assert (Hkeys : keysDistinct headerNames) by (by repeat split).
  match type of Hrun with
  | _ = (Returned ?s0, _) =>
      exists s0;
      destruct (codec_round_trip headerNames s0 VUndefined Hkeys eq_refl)
        as (carrier & retrieved & Hinj & Hret & _ & Hs & Hm & Hr & _)
  end.
  exists carrier, retrieved.
  split; [exact Hrun|]. split; [exact Hinj|]. split; [exact Hret|].
  split; [exact Hs|]. split; [exact Hm | exact Hr].
Defined.

(** C9: when the retrieve callback returns, [retrieveRequestState] asks it
    for the three keys once each, in the order AuthStatus, AuthMessage,
    AuthReason, and returns the record of the three values it got; when
    every retrieval gives null/undefined the three fields are
    null/undefined, and the call returns. *)
Theorem retrieve_once_per_key {S TRequest : Type} (h : Headers.t)
    (retrieve : @RetrieveHandler S TRequest) (req : TRequest) (s : S)
    (asked : list string) :
  (∀ key s0, ∃ v s1, retrieve req key s0 = (Returned v, s1)) →
  ∃ v1 s1 v2 s2 v3 s3,
    retrieve req (Headers.AuthStatus h) s = (Returned v1, s1)
    ∧ retrieve req (Headers.AuthMessage h) s1 = (Returned v2, s2)
    ∧ retrieve req (Headers.AuthReason h) s2 = (Returned v3, s3)
    ∧ retrieveRequestState h req (recording retrieve) (s, asked)
      = (Returned {| Retrieved.status := v1;
                     Retrieved.message := v2;
                     Retrieved.reason := v3 |},
         (s3, asked ++ [Headers.AuthStatus h; Headers.AuthMessage h;
                        Headers.AuthReason h]))
    ∧ retrieveRequestState h req retrieve s
      = (Returned {| Retrieved.status := v1;
                     Retrieved.message := v2;
                     Retrieved.reason := v3 |}, s3)
    ∧ ((∀ key s0 v s', retrieve req key s0 = (Returned v, s') →
                        isNullish v = true) →
       isNullish v1 = true ∧ isNullish v2 = true ∧ isNullish v3 = true).
Proof.
  intros Hreturns.
  destruct (Hreturns (Headers.AuthStatus h) s) as (v1 & s1 & H1).
  destruct (Hreturns (Headers.AuthMessage h) s1) as (v2 & s2 & H2).
  destruct (Hreturns (Headers.AuthReason h) s2) as (v3 & s3 & H3).
  exists v1, s1, v2, s2, v3, s3.
  split; [done|]. split; [done|]. split; [done|].
  unfold retrieveRequestState, recording, bind, ret.
  rewrite H1, H2, H3. rewrite <- !app_assoc. cbn [app].
  split; [done|]. split; [done|].
  intros Hnull. repeat split; eapply Hnull; eassumption.
Qed.

Lemma retrieve_once_per_key_witness :
  retrieveRequestState headerNames (∅ : gmap string Value)
    (recording (carrierRetrieve VNull)) (tt, [])
  = (Returned {| Retrieved.status := VNull;
                 Retrieved.message := VNull;
                 Retrieved.reason := VNull |},
     (tt, ["x-clerk-auth-status"; "x-clerk-auth-message"; "x-clerk-auth-reason"])).
Proof.
  destruct (retrieve_once_per_key headerNames (carrierRetrieve VNull)
              (∅ : gmap string Value) tt [])
    as (v1 & s1 & v2 & s2 & v3 & s3 & H1 & H2 & H3 & Hrec & _).
  - intros key s0. by eexists _, _.
  - injection H1 as <- <-. injection H2 as <- <-. injection H3 as <- <-.
    exact Hrec.
Defined.

(** A callback without effects: the record is what it reads for the three
    keys. *)
Lemma retrieve_reading {S TRequest : Type} (h : Headers.t)
    (f : TRequest → string → Value) (req : TRequest) (s : S) :
  retrieveRequestState h req (reading f) s
  = (Returned {| Retrieved.status := f req (Headers.AuthStatus h);
                 Retrieved.message := f req (Headers.AuthMessage h);
                 Retrieved.reason := f req (Headers.AuthReason h) |}, s).
Proof. reflexivity. Qed.

(** C10: whatever record [retrieveRequestState] returns, its status,
    message and reason are the very values the callback returned for the
    three keys, in that order: nothing is checked against the AuthStatus
    values or the reason codes, and nothing is changed. *)
Theorem retrieve_verbatim {S TRequest : Type} (h : Headers.t)
    (retrieve : @RetrieveHandler S TRequest) (req : TRequest) (s s' : S)
    (r : Retrieved.t) :
  retrieveRequestState h req retrieve s = (Returned r, s') →
  ∃ s1 s2,
    retrieve req (Headers.AuthStatus h) s = (Returned (Retrieved.status r), s1)
    ∧ retrieve req (Headers.AuthMessage h) s1 = (Returned (Retrieved.message r), s2)
    ∧ retrieve req (Headers.AuthReason h) s2 = (Returned (Retrieved.reason r), s').
Proof.
  unfold retrieveRequestState, bind, ret.
  destruct (retrieve req (Headers.AuthStatus h) s) as [[v1| |] s1] eqn:H1;
    try discriminate.
  destruct (retrieve req (Headers.AuthMessage h) s1) as [[v2| |] s2] eqn:H2;
    try discriminate.
  destruct (retrieve req (Headers.AuthReason h) s2) as [[v3| |] s3] eqn:H3;
    try discriminate.
  intros [= <- <-]. by exists s1, s2.
Qed.

Lemma retrieve_verbatim_witness :
  ∃ r,
    retrieveRequestState headerNames
      (<["x-clerk-auth-status" := VStr "banana"]>
         ({["x-clerk-auth-reason" := VStr "no-such-reason"]} : gmap string Value))
      (carrierRetrieve VUndefined) tt = (Returned r, tt)
    ∧ Retrieved.status r = VStr "banana"
    ∧ Retrieved.message r = VUndefined
    ∧ Retrieved.reason r = VStr "no-such-reason".
Proof.
  assert (Hrun : retrieveRequestState headerNames
            (<["x-clerk-auth-status" := VStr "banana"]>
               ({["x-clerk-auth-reason" := VStr "no-such-reason"]}
                : gmap string Value))
            (carrierRetrieve VUndefined) tt = (Returned _, tt))
    by (vm_compute; reflexivity).
  match type of Hrun with _ = (Returned ?r0, _) => exists r0 end.
  split; [exact Hrun|].
  destruct (retrieve_verbatim _ _ _ _ _ _ Hrun) as (s1 & s2 & H1 & H2 & H3).
  repeat split; reflexivity.
Defined.

Example retrieve_unknown_codes :
  retrieveRequestState headerNames
    (<["x-clerk-auth-status" := VStr "banana"]>
       ({["x-clerk-auth-reason" := VStr "no-such-reason"]} : gmap string Value))
    (carrierRetrieve VUndefined) tt
  = (Returned {| Retrieved.status := VStr "banana";
                 Retrieved.message := VUndefined;
                 Retrieved.reason := VStr "no-such-reason" |}, tt).
Proof. by vm_compute. Qed.

(** ** More on the codec *)

Lemma truthyPairs_status h rs :
  truthyPairs h rs =
  (Headers.AuthStatus h, VStr (AuthStatus.str (status rs)))
  :: (if truthy (message rs) then [(Headers.AuthMessage h, message rs)] else [])
  ++ (if truthy (reason rs) then [(Headers.AuthReason h, reason rs)] else []).
Proof. unfold truthyPairs. by rewrite status_truthy. Qed.

(** Into a carrier, [injectRequestState] writes the truthy pairs, in
    order. *)
Lemma inject_carrier h rs carrier :
  injectRequestState h rs carrierInject carrier
  = (Returned tt, writePairs carrier (truthyPairs h rs)).
Proof.
  rewrite truthyPairs_status.
  unfold injectRequestState, carrierInject, bind, ret, writePairs.
  rewrite status_truthy.
  by destruct (truthy (message rs)), (truthy (reason rs)).
Qed.

(** X6: [inject] is called for the truthy fields only, once each, in the
    order status, message, reason: between one and three calls, the first
    always for the status. *)
Theorem inject_calls {S : Type} (h : Headers.t) (rs : RequestState)
    (inject : @InjectHandler S) (s : S) (calls : list (string * Value)) :
  (∀ key value s0, ∃ s1, inject key value s0 = (Returned tt, s1)) →
  ∃ s',
    injectRequestState h rs inject s = (Returned tt, s')
    ∧ injectRequestState h rs (recordingInject inject) (s, calls)
      = (Returned tt, (s', calls ++ truthyPairs h rs))
    ∧ head (truthyPairs h rs)
      = Some (Headers.AuthStatus h, VStr (AuthStatus.str (status rs)))
    ∧ (1 ≤ length (truthyPairs h rs) ≤ 3)%nat.
Proof.
  intros Hreturns. rewrite truthyPairs_status.
  unfold injectRequestState, recordingInject, bind, ret.
  rewrite status_truthy.
  destruct (Hreturns (Headers.AuthStatus h) (VStr (AuthStatus.str (status rs))) s)
    as (s1 & H1). rewrite H1.
  destruct (truthy (message rs)).
  - destruct (Hreturns (Headers.AuthMessage h) (message rs) s1) as (s2 & H2).
    rewrite H2.
    destruct (truthy (reason rs)).
    + destruct (Hreturns (Headers.AuthReason h) (reason rs) s2) as (s3 & H3).
      rewrite H3. exists s3. rewrite <- !app_assoc. cbn. repeat split; lia.
    + exists s2. rewrite <- !app_assoc. cbn. repeat split; lia.
  - destruct (truthy (reason rs)).
    + destruct (Hreturns (Headers.AuthReason h) (reason rs) s1) as (s3 & H3).
      rewrite H3. exists s3. rewrite <- !app_assoc. cbn. repeat split; lia.
    + exists s1. cbn. repeat split; lia.
Qed.

Lemma inject_calls_witness :
  ∃ s carrier,
    interstitial exampleOptions (ErrorReason AuthErrorReason.CookieOutDated)
      (Some "stale") emptyWorld = (Returned s, emptyWorld)
    ∧ injectRequestState headerNames s (recordingInject carrierInject) (∅, [])
      = (Returned tt,
         (carrier, [("x-clerk-auth-status", VStr "interstitial");
                    ("x-clerk-auth-message", VStr "stale");
                    ("x-clerk-auth-reason", VStr "cookie-outdated")])).
Proof.
  assert (Hrun : interstitial exampleOptions
                   (ErrorReason AuthErrorReason.CookieOutDated) (Some "stale")
                   emptyWorld = (Returned _, emptyWorld)) by reflexivity.
  match type of Hrun with
  | _ = (Returned ?s0, _) =>
      exists s0;
      destruct (inject_calls headerNames s0 carrierInject ∅ [])
        as (carrier & _ & Hrec & _)
  end.
  - intros key value s1. by eexists.
  - exists carrier. split; [exact Hrun | exact Hrec].
Defined.

(** X7: [injectRequestState] fails exactly when a call of [inject] that it
    makes fails, with that call's exception and in the state that call
    left: the fields after it are not injected. *)
Theorem inject_failure {S : Type} (h : Headers.t) (rs : RequestState)
    (inject : @InjectHandler S) (s s' : S) (e : Exn) :
  injectRequestState h rs inject s = (Thrown e, s') ↔
  inject (Headers.AuthStatus h) (VStr (AuthStatus.str (status rs))) s = (Thrown e, s')
  ∨ (∃ s1,
       inject (Headers.AuthStatus h) (VStr (AuthStatus.str (status rs))) s
         = (Returned tt, s1)
       ∧ truthy (message rs) = true
       ∧ inject (Headers.AuthMessage h) (message rs) s1 = (Thrown e, s'))
  ∨ (∃ s1 s2,
       inject (Headers.AuthStatus h) (VStr (AuthStatus.str (status rs))) s
         = (Returned tt, s1)
       ∧ (if truthy (message rs)
          then inject (Headers.AuthMessage h) (message rs) s1
          else ret tt s1) = (Returned tt, s2)
       ∧ truthy (reason rs) = true
       ∧ inject (Headers.AuthReason h) (reason rs) s2 = (Thrown e, s')).
Proof.
  unfold injectRequestState, bind, ret. rewrite status_truthy.
  destruct (inject (Headers.AuthStatus h) _ s) as [[[]|e1|] s1] eqn:H1;
    destruct (truthy (message rs)) eqn:Hm, (truthy (reason rs)) eqn:Hr;
    try (destruct (inject (Headers.AuthMessage h) (message rs) s1)
           as [[[]|e2|] s2] eqn:H2);
    (split;
     [ intros H; try discriminate H; simplify_eq;
       first [ by left
             | right; left; by eexists
             | right; right; eexists _, _; rewrite ?H2; by repeat split ]
     | intros [H|[(s1' & Ha & Hb & Hc)|(s1' & s2' & Ha & Hb & Hc & Hd)]];
       simplify_eq; congruence ]).
Qed.

(** What a carrier holds after an injection: the status, the message and
    the reason where they are truthy, and everything it held before
    elsewhere. *)
Lemma inject_carrier_lookups h rs carrier :
  keysDistinct h →
  let carrier' := writePairs carrier (truthyPairs h rs) in
  carrier' !! Headers.AuthStatus h = Some (VStr (AuthStatus.str (status rs)))
  ∧ carrier' !! Headers.AuthMessage h
    = (if truthy (message rs) then Some (message rs)
       else carrier !! Headers.AuthMessage h)
  ∧ carrier' !! Headers.AuthReason h
    = (if truthy (reason rs) then Some (reason rs)
       else carrier !! Headers.AuthReason h)
  ∧ ∀ key, key ≠ Headers.AuthStatus h → key ≠ Headers.AuthMessage h →
           key ≠ Headers.AuthReason h → carrier' !! key = carrier !! key.
Proof.
  intros (Hsm & Hsr & Hmr) carrier'. subst carrier'.
  rewrite truthyPairs_status. unfold writePairs.
  destruct (truthy (message rs)), (truthy (reason rs)); cbn;
    repeat split; intros; by simplify_map_eq.
Qed.

(** X8: Injection into a carrier that is not empty: no key is ever removed.
    Keys other than the three transport keys are untouched, and a message
    or reason left by an earlier injection stays in place when the new
    state's field is not truthy, so that retrieval reads the old value. *)
Theorem inject_keeps_stale_fields (h : Headers.t) (rs : RequestState)
    (carrier : gmap string Value) (absent : Value) :
  keysDistinct h →
  ∃ carrier',
    injectRequestState h rs carrierInject carrier = (Returned tt, carrier')
    ∧ (∀ key, key ≠ Headers.AuthStatus h → key ≠ Headers.AuthMessage h →
              key ≠ Headers.AuthReason h → carrier' !! key = carrier !! key)
    ∧ (∀ key, is_Some (carrier !! key) → is_Some (carrier' !! key))
    ∧ retrieveRequestState h carrier' (carrierRetrieve absent) tt
      = (Returned
           {| Retrieved.status := VStr (AuthStatus.str (status rs));
              Retrieved.message :=
                if truthy (message rs) then message rs
                else carrierRead absent carrier (Headers.AuthMessage h);
              Retrieved.reason :=
                if truthy (reason rs) then reason rs
                else carrierRead absent carrier (Headers.AuthReason h) |}, tt).
Proof.
  intros Hkeys. eexists. split; [apply inject_carrier|].
  destruct (inject_carrier_lookups h rs carrier Hkeys) as (Hs & Hm & Hr & Hother).
  split; [exact Hother|]. split.
  - intros key Hkey.
    destruct (decide (key = Headers.AuthStatus h)) as [->|?]; [by rewrite Hs|].
    destruct (decide (key = Headers.AuthMessage h)) as [->|?].
    { rewrite Hm. by destruct (truthy (message rs)). }
    destruct (decide (key = Headers.AuthReason h)) as [->|?].
    { rewrite Hr. by destruct (truthy (reason rs)). }
    by rewrite Hother.
  - unfold retrieveRequestState, carrierRetrieve, carrierRead, bind, ret.
    rewrite Hs, Hm, Hr.
    by destruct (truthy (message rs)), (truthy (reason rs)).
Qed.

Lemma inject_keeps_stale_fields_witness :
  ∃ signedInState w' carrier',
    signedIn answeringClient exampleOptions exampleClaims emptyWorld
      = (Returned signedInState, w')
    ∧ injectRequestState headerNames signedInState carrierInject
        (<["x-clerk-auth-message" := VStr "stale"]>
           {["x-clerk-auth-status" := VStr "interstitial"]})
      = (Returned tt, carrier')
    ∧ retrieveRequestState headerNames carrier' (carrierRetrieve VUndefined) tt
      = (Returned {| Retrieved.status := VStr "signed-in";
                     Retrieved.message := VStr "stale";
                     Retrieved.reason := VUndefined |}, tt).
Proof.
  assert (Hrun : signedIn answeringClient exampleOptions exampleClaims emptyWorld
                 = (Returned _, _)) by (vm_compute; reflexivity).
  assert (Hkeys : keysDistinct headerNames) by (by repeat split).
  match type of Hrun with
  | _ = (Returned ?s0, ?w0) =>
      exists s0, w0;
      destruct (inject_keeps_stale_fields headerNames s0
                  (<["x-clerk-auth-message" := VStr "stale"]>
                     {["x-clerk-auth-status" := VStr "interstitial"]})
                  VUndefined Hkeys)
        as (carrier' & Hinj & _ & _ & Hret)
  end.
  exists carrier'. split; [exact Hrun|]. split; [exact Hinj | exact Hret].
Defined.

(** X9: Injecting the same state a second time changes nothing. *)
Theorem inject_idempotent (h : Headers.t) (rs : RequestState)
    (carrier : gmap string Value) :
  ∃ carrier',
    injectRequestState h rs carrierInject carrier = (Returned tt, carrier')
    ∧ injectRequestState h rs carrierInject carrier' = (Returned tt, carrier').
Proof.
  eexists. split; [apply inject_carrier|].
  rewrite inject_carrier. f_equal.
  rewrite truthyPairs_status. unfold writePairs.
  destruct (truthy (message rs)), (truthy (reason rs)); cbn;
    apply map_eq; intros key; rewrite !lookup_insert;
    repeat case_decide; done.
Qed.

Lemma status_str_inj st1 st2 : AuthStatus.str st1 = AuthStatus.str st2 → st1 = st2.
Proof. by destruct st1, st2. Qed.

(** X10: The status can be told from the carrier: two states whose injections
    leave the same value under the status key have the same status. *)
Theorem injected_status_identifies (h : Headers.t) (rs1 rs2 : RequestState)
    (c1 c2 c1' c2' : gmap string Value) :
  keysDistinct h →
  injectRequestState h rs1 carrierInject c1 = (Returned tt, c1') →
  injectRequestState h rs2 carrierInject c2 = (Returned tt, c2') →
  c1' !! Headers.AuthStatus h = c2' !! Headers.AuthStatus h →
  status rs1 = status rs2.
Proof.
  intros Hkeys. rewrite !inject_carrier. intros [= <-] [= <-].
  destruct (inject_carrier_lookups h rs1 c1 Hkeys) as (-> & _).
  destruct (inject_carrier_lookups h rs2 c2 Hkeys) as (-> & _).
  intros [= H]. by apply status_str_inj.
Qed.

Lemma injected_status_identifies_witness :
  ∃ s1 s2 c1' c2',
    interstitial exampleOptions (ErrorReason AuthErrorReason.Unknown) None
      emptyWorld = (Returned s1, emptyWorld)
    ∧ interstitial exampleOptions (ErrorReason AuthErrorReason.CookieMissing)
        (Some "stale") emptyWorld = (Returned s2, emptyWorld)
    ∧ injectRequestState headerNames s1 carrierInject ∅ = (Returned tt, c1')
    ∧ injectRequestState headerNames s2 carrierInject ∅ = (Returned tt, c2')
    ∧ status s1 = status s2.
Proof.
  assert (H1 : interstitial exampleOptions (ErrorReason AuthErrorReason.Unknown)
                 None emptyWorld = (Returned _, emptyWorld)) by reflexivity.
  assert (H2 : interstitial exampleOptions
                 (ErrorReason AuthErrorReason.CookieMissing) (Some "stale")
                 emptyWorld = (Returned _, emptyWorld)) by reflexivity.
  assert (Hkeys : keysDistinct headerNames) by (by repeat split).
  match type of H1 with
  | _ = (Returned ?s1, _) =>
      match type of H2 with
      | _ = (Returned ?s2, _) =>
          exists s1, s2;
          pose proof (inject_carrier headerNames s1 ∅) as Hi1;
          pose proof (inject_carrier headerNames s2 ∅) as Hi2;
          eexists _, _;
          split; [exact H1|]; split; [exact H2|];
          split; [exact Hi1|]; split; [exact Hi2|];
          apply (injected_status_identifies headerNames s1 s2 ∅ ∅ _ _
                   Hkeys Hi1 Hi2)
      end
  end.
  by vm_compute.
Defined.

(** X11: [retrieveRequestState] fails exactly when a call of [retrieve] fails,
    with that call's exception and in the state that call left: the keys
    after it are not asked for. *)
Theorem retrieve_failure {S TRequest : Type} (h : Headers.t)
    (retrieve : @RetrieveHandler S TRequest) (req : TRequest) (s s' : S)
    (e : Exn) :
  retrieveRequestState h req retrieve s = (Thrown e, s') ↔
  retrieve req (Headers.AuthStatus h) s = (Thrown e, s')
  ∨ (∃ v1 s1,
       retrieve req (Headers.AuthStatus h) s = (Returned v1, s1)
       ∧ retrieve req (Headers.AuthMessage h) s1 = (Thrown e, s'))
  ∨ (∃ v1 s1 v2 s2,
       retrieve req (Headers.AuthStatus h) s = (Returned v1, s1)
       ∧ retrieve req (Headers.AuthMessage h) s1 = (Returned v2, s2)
       ∧ retrieve req (Headers.AuthReason h) s2 = (Thrown e, s')).
Proof.
  unfold retrieveRequestState, bind, ret.
  destruct (retrieve req (Headers.AuthStatus h) s) as [[v1|e1|] s1] eqn:H1;
    try (destruct (retrieve req (Headers.AuthMessage h) s1)
           as [[v2|e2|] s2] eqn:H2);
    try (destruct (retrieve req (Headers.AuthReason h) s2)
           as [[v3|e3|] s3] eqn:H3);
    (split;
     [ intros H; try discriminate H; simplify_eq;
       first [ by left
             | right; left; eexists _, _; rewrite ?H2; by repeat split
             | right; right; eexists _, _, _, _; rewrite ?H2, ?H3;
               by repeat split ]
     | intros [H|[(v1' & s1' & Ha & Hb)
                 |(v1' & s1' & v2' & s2' & Ha & Hb & Hc)]];
       simplify_eq; congruence ]).
Qed.

(** The recording callback shows it: a callback that fails on the first
    key is asked for nothing else. *)
Example retrieve_stops_at_failure :
  retrieveRequestState headerNames tt
    (recording (fun (_ : unit) (_ : string) => throw (S := unit) TypeError))
    (tt, [])
  = (Thrown TypeError, (tt, ["x-clerk-auth-status"])).
Proof. reflexivity. Qed.

(** ** The codec on constructed states *)

Lemma invocation_fields create i w s w' :
  invoke create i w = (Returned s, w') →
  status s = statusOf i ∧ message s = messageOf i ∧ reason s = reasonOf i.
Proof.
  destruct i as [options claims|options r msg|options r msg|options r msg];
    cbn [invoke statusOf messageOf reasonOf]; intros H.
  - apply signedIn_returned in H as (resps & opts & _ & _ & Hs & _).
    by destruct Hs as (? & ? & ? & _).
  - by run_constructor H.
  - by run_constructor H.
  - by run_constructor H.
Qed.

Lemma errorReason_truthy r : truthy (reasonValue (ErrorReason r)) = true.
Proof. by destruct r. Qed.

(** X12: Constructing a state, injecting it into an empty carrier and
    retrieving it: the status is always the constructor's; a signed-in
    state leaves only the status key in the carrier; a rejection state
    gives its reason back whenever the reason code is not empty (always,
    for an AuthErrorReason), and its message whenever that is not
    empty. *)
Theorem constructed_state_round_trip create (h : Headers.t) (i : Invocation)
    (absent : Value) w s w' :
  invoke create i w = (Returned s, w') →
  keysDistinct h →
  ∃ carrier,
    injectRequestState h s carrierInject ∅ = (Returned tt, carrier)
    ∧ retrieveRequestState h carrier (carrierRetrieve absent) tt
      = (Returned {| Retrieved.status := VStr (AuthStatus.str (statusOf i));
                     Retrieved.message := transported absent (messageOf i);
                     Retrieved.reason := transported absent (reasonOf i) |}, tt)
    ∧ (statusOf i = AuthStatus.SignedIn →
       carrier = {[Headers.AuthStatus h := VStr "signed-in"]})
    ∧ (∀ r, reasonOf i = reasonValue (ErrorReason r) →
            carrier !! Headers.AuthReason h = Some (VStr (AuthErrorReason.str r))).
Proof.
  intros Hrun Hkeys.
  apply invocation_fields in Hrun as (Hst & Hm & Hr).
  eexists. split; [apply inject_carrier|].
  destruct (inject_carrier_lookups h s ∅ Hkeys) as (Hs' & Hm' & Hr' & _).
  rewrite Hst, Hm, Hr in *.
  split; [|split].
  - unfold retrieveRequestState, carrierRetrieve, transported, bind, ret.
    rewrite Hs', Hm', Hr', !lookup_empty.
    by destruct (truthy (messageOf i)), (truthy (reasonOf i)).
  - intros Hin. rewrite truthyPairs_status, Hst, Hm, Hr.
    by destruct i.
  - intros r Hreason. rewrite Hr', Hreason.
    by rewrite errorReason_truthy.
Qed.

Lemma constructed_state_round_trip_witness :
  ∃ s carrier,
    unknownState exampleOptions (ErrorReason AuthErrorReason.UnexpectedError)
      None emptyWorld = (Returned s, emptyWorld)
    ∧ injectRequestState headerNames s carrierInject ∅ = (Returned tt, carrier)
    ∧ retrieveRequestState headerNames carrier (carrierRetrieve VNull) tt
      = (Returned {| Retrieved.status := VStr "unknown";
                     Retrieved.message := VNull;
                     Retrieved.reason := VStr "unexpected-error" |}, tt).
Proof.
  assert (Hrun : invoke answeringClient
                   (CallUnknownState exampleOptions
                      (ErrorReason AuthErrorReason.UnexpectedError) None)
                   emptyWorld = (Returned _, emptyWorld)) by reflexivity.
  assert (Hkeys : keysDistinct headerNames) by (by repeat split).
  match type of Hrun with
  | _ = (Returned ?s0, _) =>
      exists s0;
      destruct (constructed_state_round_trip answeringClient headerNames _
                  VNull _ _ _ Hrun Hkeys) as (carrier & Hinj & Hret & _)
  end.
  exists carrier. split; [exact Hrun|]. split; [exact Hinj | exact Hret].
Defined.

(** ** More on the constructors *)

(** X1: Options that are [undefined] or [null] make each of the four
    constructors throw a TypeError, and so do [undefined] or [null] claims
    for [signedIn]; the world is left as it was: no fetch has been issued
    and no auth object built. *)
Theorem constructors_reject_nullish create (i : Invocation) (w : World) :
  isNullish (optionsOf i) = true
  ∨ (∃ options sessionClaims,
       i = CallSignedIn options sessionClaims ∧ isNullish sessionClaims = true) →
  invoke create i w = (Thrown TypeError, w).
Proof.
  intros [H|(options & claims & -> & H)].
  - destruct i as [options claims|options r msg|options r msg|options r msg];
      cbn [invoke optionsOf] in *.
    + apply signedIn_nullish. by left.
    + by apply rejection_constructors_nullish.
    + by apply rejection_constructors_nullish.
    + by apply rejection_constructors_nullish.
  - cbn [invoke]. apply signedIn_nullish. by right.
Qed.

Lemma constructors_reject_nullish_witness :
  invoke failingClient (CallSignedIn exampleOptions VNull) emptyWorld
  = (Thrown TypeError, emptyWorld).
Proof.
  apply constructors_reject_nullish. right.
  exists exampleOptions, VNull. by split.
Defined.

Lemma fulfilledValues_None ps :
  fulfilledValues ps = None ↔ ∃ p, p ∈ ps ∧ ∀ v, p ≠ Fulfilled v.
Proof.
  induction ps as [|p ps IH]; simpl.
  - split; [done|]. intros (p & Hin & _). by apply elem_of_nil in Hin.
  - destruct p as [v|t e|].
    + destruct (fulfilledValues ps) as [vs|]; simpl.
      * split; [done|]. intros (p & Hin & Hp).
        apply elem_of_cons in Hin as [->|Hin]; [by destruct (Hp v)|].
        assert (Hnone : Some vs = None) by (apply IH; by exists p).
        discriminate Hnone.
      * split; [|done]. intros _.
        destruct (proj1 IH eq_refl) as (p & Hin & Hp).
        exists p. split; [by apply elem_of_cons; right | done].
    + split; [|done]. intros _. exists (Rejected t e).
      split; [by apply elem_of_cons; left | done].
    + split; [|done]. intros _. exists Unsettled.
      split; [by apply elem_of_cons; left | done].
Qed.

(** The joint wait never settles exactly when no promise is rejected and
    one never settles. *)
Lemma Promise_all_Pending ps :
  Promise_all ps = Pending ↔ (∀ t e, Rejected t e ∉ ps) ∧ Unsettled ∈ ps.
Proof.
  unfold Promise_all. split.
  - destruct (firstRejection ps) as [[t e]|] eqn:Hrej; [done|].
    destruct (fulfilledValues ps) as [vs|] eqn:Hful; [done|]. intros _.
    pose proof (proj1 (firstRejection_None ps) Hrej) as Hnone.
    split; [exact Hnone|].
    apply fulfilledValues_None in Hful as (p & Hin & Hp).
    destruct p as [v|t e|]; [by destruct (Hp v) | by destruct (Hnone t e) | done].
  - intros (Hnone & Hin).
    rewrite (proj2 (firstRejection_None ps) Hnone).
    assert (Hful : fulfilledValues ps = None).
    { apply fulfilledValues_None. by exists Unsettled. }
    by rewrite Hful.
Qed.

(** The joint wait is fulfilled exactly when every promise is. *)
Lemma Promise_all_fulfilled ps :
  (∃ vs, Promise_all ps = Returned vs) ↔ ∀ p, p ∈ ps → ∃ v, p = Fulfilled v.
Proof.
  split.
  - intros (vs & H) p Hin. apply Promise_all_Returned in H as ->.
    apply list_elem_of_fmap in Hin as (v & -> & _). by exists v.
  - intros Hall.
    destruct (Promise_all ps) as [vs|x|] eqn:H; [by exists vs| |].
    + apply Promise_all_Thrown in H as (t & e & Hin & _).
      by destruct (Hall _ Hin).
    + apply Promise_all_Pending in H as (_ & Hin). by destruct (Hall _ Hin).
Qed.

(** A slot that is not the fulfilled [undefined] of a shut gate is the
    answer to a gated fetch. *)
Lemma slots_elem client o cl p :
  p ≠ Fulfilled VUndefined →
  p ∈ slots client o cl ↔ ∃ f, f ∈ gatedFetches o cl ∧ answer client f = p.
Proof.
  intros Hp. unfold slots, gatedFetches, slot, Promise_resolve.
  destruct (sessionGate o), (userGate o), (organizationGate o cl); cbn [app];
    (split;
     [ intros Hin; repeat (apply elem_of_cons in Hin as [Hin|Hin]);
       try done; try (by inversion Hin);
       eexists; (split; [|symmetry; exact Hin]); set_solver
     | intros (f & Hin & Hf);
       repeat (apply elem_of_cons in Hin as [->|Hin]); try (by inversion Hin);
       rewrite Hf; set_solver ]).
Qed.

Lemma slots_fulfilled client o cl :
  (∀ p, p ∈ slots client o cl → ∃ v, p = Fulfilled v) ↔
  (∀ f, f ∈ gatedFetches o cl → ∃ v, answer client f = Fulfilled v).
Proof.
  split.
  - intros Hall f Hin.
    destruct (answer client f) as [v|t e|] eqn:Hf; [by exists v| |].
    + assert (Hp : Rejected t e ∈ slots client o cl).
      { apply slots_elem; [done|]. by exists f. }
      by destruct (Hall _ Hp).
    + assert (Hp : Unsettled ∈ slots client o cl).
      { apply slots_elem; [done|]. by exists f. }
      by destruct (Hall _ Hp).
  - intros Hall p Hin.
    destruct p as [v|t e|]; [by exists v| |];
      (apply slots_elem in Hin as (f & Hf & Heq); [|done];
       destruct (Hall f Hf) as (v & Hv); congruence).
Qed.

(** X2: [signedIn] returns a state exactly when every fetch it issued is
    fulfilled, and never resolves exactly when none is rejected and one
    never settles.  It builds its auth object only when it returns: one
    object then, none when it fails or hangs. *)
Theorem signedIn_outcome create options sessionClaims (w : World) :
  isNullish options = false →
  isNullish sessionClaims = false →
  let o := getProp options in
  let cl := getProp sessionClaims in
  let client := clientFor create o in
  let result := signedIn create options sessionClaims w in
  ((∃ s, result.1 = Returned s) ↔
   ∀ f, f ∈ gatedFetches o cl → ∃ v, answer client f = Fulfilled v)
  ∧ (result.1 = Pending ↔
     (∀ f t e, f ∈ gatedFetches o cl → answer client f ≠ Rejected t e)
     ∧ ∃ f, f ∈ gatedFetches o cl ∧ answer client f = Unsettled)
  ∧ length (heap result.2)
    = match result.1 with
      | Returned _ => S (length (heap w))
      | _ => length (heap w)
      end.
Proof.
  intros Ho Hc o cl client result. subst result.
  pose proof (signedIn_spec create options sessionClaims w Ho Hc) as Hspec.
  cbn zeta in Hspec. fold o cl client in Hspec.
  rewrite <- slots_fulfilled, <- Promise_all_fulfilled.
  assert (Hpending :
    Promise_all (slots client o cl) = Pending ↔
    (∀ f t e, f ∈ gatedFetches o cl → answer client f ≠ Rejected t e)
    ∧ ∃ f, f ∈ gatedFetches o cl ∧ answer client f = Unsettled).
  { rewrite Promise_all_Pending. split.
    - intros (Hnone & Hin). split.
      + intros f t e Hf Hans. apply (Hnone t e), slots_rejected. by exists f.
      + by apply slots_elem in Hin.
    - intros (Hnone & f & Hf & Hans). split.
      + intros t e Hin. apply slots_rejected in Hin as (f' & Hf' & Hans').
        by apply (Hnone f' t e).
      + apply slots_elem; [done|]. by exists f. }
  rewrite <- Hpending.
  destruct (Promise_all (slots client o cl)) as [resps|x|].
  - destruct Hspec as (s & opts & -> & _). cbn [fst snd].
    split; [|split].
    + split; intros _; by eexists.
    + done.
    + unfold afterBuild, afterFetches. cbn [heap]. rewrite length_app. cbn. lia.
  - rewrite Hspec. cbn [fst snd]. split; [|split]; try done.
    split; intros (? & ?); discriminate.
  - rewrite Hspec. cbn [fst snd]. split; [|split]; try done.
    split; intros (? & ?); discriminate.
Qed.

Lemma signedIn_outcome_witness :
  (signedIn hangingClient exampleOptions exampleClaims emptyWorld).1 = Pending
  ∧ length (heap (signedIn hangingClient exampleOptions exampleClaims
                    emptyWorld).2) = 0%nat.
Proof.
  destruct (signedIn_outcome hangingClient exampleOptions exampleClaims
              emptyWorld eq_refl eq_refl) as (_ & Hpending & Hheap).
  assert (H : (signedIn hangingClient exampleOptions exampleClaims
                 emptyWorld).1 = Pending).
  { apply Hpending. split.
    - intros f t e _. by destruct f.
    - exists (GetUser (VStr "user_1")). split; [|done].
      vm_compute. repeat constructor. }
  split; [exact H|]. rewrite Hheap. by rewrite H.
Defined.

(** X3: The records that were fetched reach the auth object: the slot of an
    open gate holds the value its fetch was fulfilled with.  The object
    also gets the claims as they came and the four credentials of the
    options. *)
Theorem signedIn_fetched_records create options sessionClaims w s w' :
  signedIn create options sessionClaims w = (Returned s, w') →
  let o := getProp options in
  let cl := getProp sessionClaims in
  let client := clientFor create o in
  ∃ a opts debugData,
    toAuth s w' = (Returned (Some a), w')
    ∧ heap w' !! a = Some (SignedInAuthObject sessionClaims opts debugData)
    ∧ (sessionGate o = true →
       answer client (sessionFetch cl) = Fulfilled (session opts))
    ∧ (userGate o = true →
       answer client (userFetch cl) = Fulfilled (user opts))
    ∧ (organizationGate o cl = true →
       answer client (organizationFetch cl) = Fulfilled (organization opts))
    ∧ secretKey opts = o "secretKey"
    ∧ apiKey opts = o "apiKey"
    ∧ apiUrl opts = o "apiUrl"
    ∧ apiVersion opts = o "apiVersion".
Proof.
  intros H o cl client.
  apply signedIn_authObject in H
    as (resps & opts & dbg & Hto & Hheap & _ & Hslots & Hopts).
  fold o cl client in Hslots, Hopts.
  exists (length (heap w)), opts, dbg. rewrite Hto, Hheap.
  split; [done|]. split; [by apply list_lookup_middle|].
  destruct Hopts as (-> & -> & -> & -> & _ & -> & -> & ->).
  unfold slots, slot in Hslots.
  destruct resps as [|v1 [|v2 [|v3 [|]]]]; try discriminate Hslots.
  injection Hslots as H1 H2 H3. cbn.
  repeat split; intros Hg;
    [rewrite Hg in H1|rewrite Hg in H2|rewrite Hg in H3]; done.
Qed.

Lemma signedIn_fetched_records_witness :
  ∃ s w' a opts debugData,
    signedIn answeringClient exampleOptions exampleClaims emptyWorld = (Returned s, w')
    ∧ heap w' !! a = Some (SignedInAuthObject exampleClaims opts debugData)
    ∧ session opts = VObj {["id" := VStr "sess_1"]}
    ∧ user opts = VObj {["id" := VStr "user_1"]}.
Proof.
  assert (Hrun : signedIn answeringClient exampleOptions exampleClaims emptyWorld
                 = (Returned _, _)) by (vm_compute; reflexivity).
  match type of Hrun with
  | _ = (Returned ?s0, ?w0) => exists s0, w0
  end.
  destruct (signedIn_fetched_records _ _ _ _ _ _ Hrun)
    as (a & opts & dbg & _ & Hheap & Hs & Hu & _).
  exists a, opts, dbg. split; [exact Hrun|]. split; [exact Hheap|].
  specialize (Hs eq_refl). specialize (Hu eq_refl).
  injection Hs as <-. injection Hu as <-. by split.
Defined.

(** X4: The debug data of the auth objects: the options with [status] (and,
    for a signed-out state, [reason] and [message]) put on top.  Every
    other key of the options is kept as it is; an option of one of those
    names is overridden. *)
Theorem debug_data_overrides create options sessionClaims (r : AuthReason)
    (msg : option string) (w : World) :
  (∀ s w',
     signedIn create options sessionClaims w = (Returned s, w') →
     ∃ a opts debugData,
       toAuth s w' = (Returned (Some a), w')
       ∧ heap w' !! a = Some (SignedInAuthObject sessionClaims opts debugData)
       ∧ debugData !! "status" = Some (VStr "signed-in")
       ∧ ∀ key, key ≠ "status" → debugData !! key = spread options !! key)
  ∧ (∀ s w',
       signedOut options r msg w = (Returned s, w') →
       ∀ w1, ∃ a w2 debugData,
         toAuth s w1 = (Returned (Some a), w2)
         ∧ heap w2 !! a = Some (SignedOutAuthObject debugData)
         ∧ debugData !! "status" = Some (VStr "signed-out")
         ∧ debugData !! "reason" = Some (reasonValue r)
         ∧ debugData !! "message" = Some (VStr (default "" msg))
         ∧ ∀ key, key ≠ "status" → key ≠ "reason" → key ≠ "message" →
                  debugData !! key = spread options !! key).
Proof.
  split.
  - intros s w' H.
    apply signedIn_returned in H as (resps & opts & _ & -> & Hs & _).
    destruct Hs as (_ & _ & _ & _ & _ & _ & _ & _ & _ & _ & _ & Hto).
    eexists _, opts, _. rewrite Hto. split; [reflexivity|].
    split; [exact (heap_afterBuild (afterFetches w _) _)|].
    split; [by simplify_map_eq|]. intros key Hkey. by simplify_map_eq.
  - intros s w' H w1. rewrite (signedOut_toAuth _ _ _ _ _ _ H).
    eexists _, _, _. split; [reflexivity|].
    split; [apply heap_afterBuild|]. unfold signedOutDebugData.
    repeat split; intros; by simplify_map_eq.
Qed.

Lemma debug_data_overrides_witness :
  ∃ s a w2 debugData,
    signedOut (VObj (<["status" := VStr "banana"]> {["domain" := VStr "example.com"]}))
      (ErrorReason AuthErrorReason.CookieMissing) None emptyWorld
      = (Returned s, emptyWorld)
    ∧ toAuth s emptyWorld = (Returned (Some a), w2)
    ∧ heap w2 !! a = Some (SignedOutAuthObject debugData)
    ∧ debugData !! "status" = Some (VStr "signed-out")
    ∧ debugData !! "domain" = Some (VStr "example.com").
Proof.
  assert (Hrun : signedOut
                   (VObj (<["status" := VStr "banana"]>
                            {["domain" := VStr "example.com"]}))
                   (ErrorReason AuthErrorReason.CookieMissing) None emptyWorld
                 = (Returned _, emptyWorld)) by reflexivity.
  match type of Hrun with
  | _ = (Returned ?s0, _) => exists s0
  end.
  destruct (debug_data_overrides answeringClient
              (VObj (<["status" := VStr "banana"]>
                       {["domain" := VStr "example.com"]}))
              exampleClaims (ErrorReason AuthErrorReason.CookieMissing) None
              emptyWorld) as [_ Hout].
  destruct (Hout _ _ Hrun emptyWorld)
    as (a & w2 & dbg & Hto & Hheap & Hst & _ & _ & Hother).
  exists a, w2, dbg. split; [exact Hrun|]. split; [exact Hto|].
  split; [exact Hheap|]. split; [exact Hst|].
  rewrite Hother by done. by vm_compute.
Defined.

(** ** The build configuration *)

Lemma strictEqualsString_true v s : strictEqualsString v s = true ↔ v = VStr s.
Proof.
  destruct v; simpl; try (split; [discriminate|intros [=]]).
  rewrite String.eqb_eq. split; [by intros ->|by intros [= ->]].
Qed.

(** X13: Both builds get the same [define] table: the package's name and
    version between double quotes, and [__DEV__] as "false" exactly when
    [env.NODE_ENV] is the string "production" and as "true" otherwise, also
    when there is no [env] at all. *)
Theorem config_define {S : Type} (name version : string)
    (m : gmap string Value) (s : S) :
  ∃ esm cjs table,
    Tsup.config name version (VObj m) s = (Returned [esm; cjs], s)
    ∧ esm !! "define" = Some (Tsup.CTable table)
    ∧ cjs !! "define" = Some (Tsup.CTable table)
    ∧ table !! "PACKAGE_NAME" = Some (doubleQuote +:+ name +:+ doubleQuote)
    ∧ table !! "PACKAGE_VERSION" = Some (doubleQuote +:+ version +:+ doubleQuote)
    ∧ (table !! "__DEV__" = Some "false" ↔
       optionalMember (getProp (VObj m) "env") "NODE_ENV" = VStr "production")
    ∧ (table !! "__DEV__" = Some "true" ↔
       optionalMember (getProp (VObj m) "env") "NODE_ENV" ≠ VStr "production")
    ∧ (isNullish (getProp (VObj m) "env") = true →
       table !! "__DEV__" = Some "true").
Proof.
  unfold Tsup.config, member, bind, ret. cbn [isNullish getProp].
  set (v := optionalMember (default VUndefined (m !! "env")) "NODE_ENV").
  assert (Hnull : isNullish (default VUndefined (m !! "env")) = true →
                  v = VUndefined).
  { intros H. subst v. unfold optionalMember. by rewrite H. }
  eexists _, _, _. split; [reflexivity|].
  split; [by simplify_map_eq|]. split; [by simplify_map_eq|].
  split; [by simplify_map_eq|]. split; [by simplify_map_eq|].
  rewrite lookup_insert_eq.
  destruct (strictEqualsString v "production") eqn:Hprod;
    cbn [negb booleanToString].
  - apply strictEqualsString_true in Hprod.
    repeat split; try done.
    intros H. apply Hnull in H. congruence.
  - assert (Hne : v ≠ VStr "production").
    { intros Heq. apply strictEqualsString_true in Heq. congruence. }
    repeat split; try done.
Qed.

(** X14: The configuration function fails only when it is called on
    [undefined] or [null]; on anything else it returns two builds. *)
Theorem config_fails_iff_nullish {S : Type} (name version : string)
    (overrideOptions : Value) (s : S) :
  (Tsup.config name version overrideOptions s = (Thrown TypeError, s) ↔
   isNullish overrideOptions = true)
  ∧ (isNullish overrideOptions = false ↔
     ∃ esm cjs,
       Tsup.config name version overrideOptions s = (Returned [esm; cjs], s)).
Proof.
  unfold Tsup.config, member, bind, throw, ret.
  destruct (isNullish overrideOptions).
  - split; [done|]. split; [done|]. intros (? & ? & ?). discriminate.
  - split; [done|]. split; [|done]. intros _. by eexists _, _.
Qed.

(** X15: The two builds are the ESM one and the CommonJS one, in this order;
    only the CommonJS build has an output directory; and they differ in no
    setting other than [format], [outDir] and [onSuccess], whatever the
    environment. *)
Theorem config_builds_agree {S : Type} (name version : string)
    (m : gmap string Value) (s : S) :
  ∃ esm cjs,
    Tsup.config name version (VObj m) s = (Returned [esm; cjs], s)
    ∧ esm !! "format" = Some (Tsup.CStr "esm")
    ∧ cjs !! "format" = Some (Tsup.CStr "cjs")
    ∧ esm !! "outDir" = None
    ∧ cjs !! "outDir" = Some (Tsup.CStr "./dist/cjs")
    ∧ esm !! "onSuccess" ≠ cjs !! "onSuccess"
    ∧ ∀ key, key ≠ "format" → key ≠ "outDir" → key ≠ "onSuccess" →
             esm !! key = cjs !! key.
Proof.
  unfold Tsup.config, member, bind, ret. cbn [isNullish]. cbn zeta.
  eexists _, _. split; [reflexivity|].
  split; [by simplify_map_eq|]. split; [by simplify_map_eq|].
  split; [by simplify_map_eq|]. split; [by simplify_map_eq|].
  split.
  - rewrite !lookup_insert_eq. by intros [=].
  - intros key ? ? ?.
    rewrite (lookup_insert_ne _ "onSuccess" key) by done.
    rewrite (lookup_insert_ne _ "format" key) by done.
    rewrite (lookup_insert_ne _ "onSuccess" key) by done.
    rewrite (lookup_insert_ne _ "outDir" key) by done.
    by rewrite (lookup_insert_ne _ "format" key) by done.
Qed.

Example config_production :
  ∃ esm cjs,
    Tsup.config "@clerk/nextjs" "4.0.0"
      (VObj {["env" := VObj {["NODE_ENV" := VStr "production"]}]}) tt
    = (Returned [esm; cjs], tt)
    ∧ esm !! "define"
      = Some (Tsup.CTable
                (<["__DEV__" := "false"]>
                 (<["PACKAGE_VERSION" := doubleQuote +:+ "4.0.0" +:+ doubleQuote]>
                    {["PACKAGE_NAME" := doubleQuote +:+ "@clerk/nextjs" +:+ doubleQuote]}))).
Proof. eexists _, _. split; [reflexivity|]. by vm_compute. Qed.

(** ** The token of the auth object *)

Lemma truthy_not_nullish v : truthy v = true → isNullish v = false.
Proof. by destruct v. Qed.

(** X5: The token handed to the auth object is never [undefined] or [null]:
    it is the empty string exactly when neither the cookie token nor the
    header token is truthy (an empty cookie token counts as none), and a
    truthy value otherwise. *)
Theorem signedIn_token_never_nullish create options sessionClaims w s w' :
  signedIn create options sessionClaims w = (Returned s, w') →
  ∃ a opts debugData,
    toAuth s w' = (Returned (Some a), w')
    ∧ heap w' !! a = Some (SignedInAuthObject sessionClaims opts debugData)
    ∧ isNullish (token opts) = false
    ∧ (token opts = VStr "" ↔
       truthy (getProp options "cookieToken") = false
       ∧ truthy (getProp options "headerToken") = false)
    ∧ (token opts ≠ VStr "" → truthy (token opts) = true).
Proof.
  intros H.
  apply signedIn_authObject in H as (resps & opts & dbg & Hto & Hheap & _ & _ & Hopts).
  exists (length (heap w)), opts, dbg. rewrite Hto, Hheap.
  split; [done|]. split; [by apply list_lookup_middle|].
  destruct Hopts as (_ & _ & _ & _ & -> & _). rewrite js_or_chosenToken.
  unfold chosenToken.
  destruct (truthy (getProp options "cookieToken")) eqn:Hc.
  - split; [by apply truthy_not_nullish|]. split; [|done].
    split; [|by intros [? _]]. intros Heq. rewrite Heq in Hc. discriminate Hc.
  - destruct (truthy (getProp options "headerToken")) eqn:Hh.
    + split; [by apply truthy_not_nullish|]. split; [|done].
      split; [|by intros [_ ?]]. intros Heq. rewrite Heq in Hh. discriminate Hh.
    + by repeat split.
Qed.

Lemma signedIn_token_never_nullish_witness :
  ∃ s w' a opts debugData,
    signedIn answeringClient
      (VObj (<["cookieToken" := VStr ""]> {["headerToken" := VStr "h"]}))
      exampleClaims emptyWorld = (Returned s, w')
    ∧ heap w' !! a = Some (SignedInAuthObject exampleClaims opts debugData)
    ∧ isNullish (token opts) = false
    ∧ token opts ≠ VStr "".
Proof.
  assert (Hrun : signedIn answeringClient
                   (VObj (<["cookieToken" := VStr ""]> {["headerToken" := VStr "h"]}))
                   exampleClaims emptyWorld = (Returned _, _))
    by (vm_compute; reflexivity).
  match type of Hrun with
  | _ = (Returned ?s0, ?w0) => exists s0, w0
  end.
  destruct (signedIn_token_never_nullish _ _ _ _ _ _ Hrun)
    as (a & opts & dbg & _ & Hheap & Hnn & Hempty & _).
  exists a, opts, dbg. split; [exact Hrun|]. split; [exact Hheap|].
  split; [exact Hnn|]. intros Heq. apply Hempty in Heq as [_ Hh].
  by vm_compute in Hh.
Defined.
